(** * View-mode plugin: policy resolution, lock registry and enforcement

    A shallow embedding of [src/main.ts] (class [ViewModePlugin], and the
    older class [MyPlugin] kept in the same repository), followed by the
    properties of the specification that were checked against it.

    Conventions.
    - JavaScript strings are Rocq [string]s (byte strings).  The only
      character the code inspects is '/', whose byte never occurs inside a
      multi-byte UTF-8 sequence, so cutting at the last '/' and testing a
      prefix give the same answers on bytes as on UTF-16 code units.
    - [Set<string>] is [gset string]; the frontmatter object is a
      [gmap string JsValue].
    - Methods that mutate [this] or a view take the old value and return
      the new one; [World] gathers the fields of the plugin and what it
      reaches through [this.app] and [document].
    - The host is outside the repository.  Its [setState] is taken to store
      the state it is given; every call that reaches it is recorded in
      [hostCalls], and the statements about writes are made on that record.

    Left out: the settings tab, the unlock dialog, the click filter (they
    live in the DOM) and the reading of the host's configuration file. *)

From Stdlib Require Import ZArith Ascii String List Bool Lia.
From stdpp Require Import base decidable option gmap strings.

Local Open Scope string_scope.
Local Open Scope Z_scope.

(** ** JavaScript string primitives used by the plugin *)

Module Js.

(** [s.lastIndexOf(c)]: index of the last occurrence of the character, or
    [-1] when there is none. *)
Fixpoint lastIndexOf (c : ascii) (s : string) : Z :=
  match s with
  | EmptyString => -1
  | String a s' =>
      let r := lastIndexOf c s' in
      if 0 <=? r then r + 1
      else if Ascii.eqb a c then 0 else -1
  end.

Definition clamp (n : Z) (len : Z) : Z := Z.min (Z.max n 0) len.

(** [s.substring(start, end)]: both indices are clamped to [0, length]
    and swapped when out of order. *)
Definition substring (s : string) (start end_ : Z) : string :=
  let len := Z.of_nat (String.length s) in
  let a := clamp start len in
  let b := clamp end_ len in
  let from := Z.min a b in
  let to := Z.max a b in
  String.substring (Z.to_nat from) (Z.to_nat (to - from)) s.

(** [s.startsWith(p)]. *)
Definition startsWith (s p : string) : bool := String.prefix p s.

(** Values a frontmatter property can hold, as far as [typeof] tells
    them apart. *)
Inductive JsValue : Type :=
| JsUndefined
| JsNull
| JsBool (b : bool)
| JsNumber (n : Z)
| JsString (s : string)
| JsObject.

End Js.
Export Js(JsValue(..)).

Definition slash : ascii := "/"%char.

(** ** Settings *)

Inductive ViewMode : Type := Read | Edit | EditSource | EditPreview | Lock.

#[global] Instance ViewMode_eq_dec : EqDecision ViewMode.
Proof. solve_decision. Defined.

Record FolderViewMode : Type := mkFolderViewMode {
  folderPath : string;
  viewMode : ViewMode
}.

Record CustomYamlNames : Type := mkCustomYamlNames {
  read : string;
  edit : string;
  editSource : string;
  editPreview : string;
  lock : string
}.

Record ViewModeSettings : Type := mkSettings {
  metaPropertyName : string;
  showModeChangeNotification : bool;
  folderViewModes : list FolderViewMode;
  customYamlNames : CustomYamlNames
}.

Definition DEFAULT_SETTINGS : ViewModeSettings :=
  {| metaPropertyName := "view_mode";
     showModeChangeNotification := false;
     folderViewModes := [];
     customYamlNames :=
       {| read := "read_only"; edit := "edit_mode";
          editSource := "edit_source"; editPreview := "edit_preview";
          lock := "locked" |} |}.

(** The token configured for a mode. *)
Definition tokenOf (n : CustomYamlNames) (m : ViewMode) : string :=
  match m with
  | Read => read n
  | Edit => edit n
  | EditSource => editSource n
  | EditPreview => editPreview n
  | Lock => lock n
  end.

(** ** ModeResolver *)

(** What the metadata cache returns for a file ([getFileCache] may return
    null, and a cache entry may have no frontmatter). *)
Record FileCache : Type := mkFileCache {
  frontmatter : option (gmap string JsValue)
}.

(** [frontmatter[name]]: a missing key reads as [undefined]. *)
Definition getProperty (fm : gmap string JsValue) (name : string) : JsValue :=
  default JsUndefined (fm !! name).

(** [filePath.substring(0, filePath.lastIndexOf('/'))] *)
Definition containingFolder (filePath : string) : string :=
  Js.substring filePath 0 (Js.lastIndexOf slash filePath).

(** The test of the loop of [getFolderViewMode]. *)
Definition folderMatches (folder : string) (r : FolderViewMode) : bool :=
  String.eqb folder (folderPath r)
  || Js.startsWith folder (folderPath r ++ "/").

(** The loop of [getFolderViewMode] over the configured rules. *)
Fixpoint scanFolderViewModes (folder : string) (rules : list FolderViewMode)
  : option ViewMode :=
  match rules with
  | [] => None
  | r :: rest =>
      if folderMatches folder r then Some (viewMode r)
      else scanFolderViewModes folder rest
  end.

Definition getFolderViewMode (s : ViewModeSettings) (filePath : string)
  : option ViewMode :=
  scanFolderViewModes (containingFolder filePath) (folderViewModes s).

Definition isValidViewMode (s : ViewModeSettings) (value : JsValue) : bool :=
  match value with
  | JsString v =>
      let customNames := customYamlNames s in
      String.eqb v (read customNames)
      || String.eqb v (edit customNames)
      || String.eqb v (editSource customNames)
      || String.eqb v (editPreview customNames)
      || String.eqb v (lock customNames)
  | _ => false
  end.

Definition convertYamlValueToViewMode (s : ViewModeSettings) (value : string)
  : option ViewMode :=
  let customNames := customYamlNames s in
  if String.eqb value (read customNames) then Some Read
  else if String.eqb value (edit customNames) then Some Edit
  else if String.eqb value (editSource customNames) then Some EditSource
  else if String.eqb value (editPreview customNames) then Some EditPreview
  else if String.eqb value (lock customNames) then Some Lock
  else None.

(** The frontmatter half of the resolution block that the file-open
    handler, [checkAndEnforceLockedFiles] and [initializeLockedFiles] all
    repeat: [viewMode] stays undefined unless the cache has frontmatter and
    the property holds a valid token. *)
Definition frontmatterViewMode (s : ViewModeSettings)
    (fileCache : option FileCache) : option ViewMode :=
  match fileCache with
  | Some fc =>
      match frontmatter fc with
      | Some fm =>
          let frontmatterValue := getProperty fm (metaPropertyName s) in
          if isValidViewMode s frontmatterValue then
            match frontmatterValue with
            | JsString v => convertYamlValueToViewMode s v
            | _ => None
            end
          else None
      | None => None
      end
  | None => None
  end.

(** The whole block: frontmatter first, then [if (!viewMode)] the folder
    rules. *)
Definition resolveViewMode (s : ViewModeSettings)
    (fileCache : option FileCache) (filePath : string) : option ViewMode :=
  match frontmatterViewMode s fileCache with
  | Some m => Some m
  | None => getFolderViewMode s filePath
  end.

(** ** Host objects: files, view state, views *)

Record TFile : Type := mkTFile {
  path : string;
  basename : string;
  extension : string
}.

#[global] Instance TFile_eq_dec : EqDecision TFile.
Proof. solve_decision. Defined.

(** [ViewState.mode] *)
Inductive DisplayMode : Type := Preview | Source.

#[global] Instance DisplayMode_eq_dec : EqDecision DisplayMode.
Proof. solve_decision. Defined.

#[global] Instance JsValue_eq_dec : EqDecision JsValue.
Proof. solve_decision. Defined.

(** [interface ViewState]: two optional fields and an open set of other
    keys. *)
Record ViewState : Type := mkViewState {
  mode : option DisplayMode;
  source : option bool;
  otherKeys : list (string * JsValue)
}.

(** [interface ViewStateResult] *)
Record ViewStateResult : Type := mkViewStateResult {
  history : bool;
  otherResultKeys : list (string * JsValue)
}.

Definition with_mode (st : ViewState) (m : DisplayMode) : ViewState :=
  {| mode := Some m; source := source st; otherKeys := otherKeys st |}.

Definition with_source (st : ViewState) (b : bool) : ViewState :=
  {| mode := mode st; source := Some b; otherKeys := otherKeys st |}.

(** The literal [{ history: false }]. *)
Definition noHistory : ViewStateResult :=
  {| history := false; otherResultKeys := [] |}.

(** The function stored in [view.setState]: the host's own method, or the
    wrapper installed by [patchViewStateMethod] around the method it found.
    The wrapper calls the field [_originalSetState]; that field is assigned
    once, in the same branch that installs the wrapper, so it always holds
    the method the wrapper was built around. *)
Inductive Setter : Type :=
| hostSetState
| lockGuard (original : Setter).

#[global] Instance Setter_eq_dec : EqDecision Setter.
Proof. solve_decision. Defined.

Fixpoint wrapDepth (f : Setter) : nat :=
  match f with
  | hostSetState => 0%nat
  | lockGuard g => S (wrapDepth g)
  end.

(** An open markdown view.  [liveState] is what [getState()] returns;
    [hostCalls] records, oldest first, every call that reached the host's
    own [setState] with the two arguments it received. *)
Record MarkdownView : Type := mkView {
  file : option TFile;
  liveState : ViewState;
  setState : Setter;
  _originalSetState : option Setter;
  hostCalls : list (ViewState * ViewStateResult)
}.

Definition getState (view : MarkdownView) : ViewState := liveState view.

(** [new Notice(...)], by message. *)
Inductive Notice : Type :=
| NoticeReadOnly (name : option string)
| NoticeEditMode (name : option string) (livePreview : bool)
| NoticeSourceEdit (name : option string)
| NoticeLivePreviewEdit (name : option string)
| NoticeLocked (name : option string).

(** Callbacks handed to [setTimeout] by the handlers of [onload]. *)
Inductive Callback : Type :=
| CbApplyOnOpen (f : TFile)
| CbCheckAndEnforce
| CbEnforceActiveLock.

(** ** Plugin and application state *)

Record World : Type := mkWorld {
  (* this *)
  settings : ViewModeSettings;
  livePreviewConfig : bool;
  lockedFiles : gset string;
  temporarilyUnlockedFiles : gset string;
  (* this.app and the document *)
  activeView : option MarkdownView;
  fileCaches : gmap string FileCache;
  notices : list Notice;
  editButtons : list bool;
  timers : list (Callback * Z)
}.

Definition set_lockedFiles (w : World) (s : gset string) : World :=
  {| settings := settings w; livePreviewConfig := livePreviewConfig w;
     lockedFiles := s;
     temporarilyUnlockedFiles := temporarilyUnlockedFiles w;
     activeView := activeView w; fileCaches := fileCaches w;
     notices := notices w; editButtons := editButtons w;
     timers := timers w |}.

Definition set_temporarilyUnlockedFiles (w : World) (s : gset string)
  : World :=
  {| settings := settings w; livePreviewConfig := livePreviewConfig w;
     lockedFiles := lockedFiles w;
     temporarilyUnlockedFiles := s;
     activeView := activeView w; fileCaches := fileCaches w;
     notices := notices w; editButtons := editButtons w;
     timers := timers w |}.

Definition set_activeView (w : World) (v : option MarkdownView) : World :=
  {| settings := settings w; livePreviewConfig := livePreviewConfig w;
     lockedFiles := lockedFiles w;
     temporarilyUnlockedFiles := temporarilyUnlockedFiles w;
     activeView := v; fileCaches := fileCaches w;
     notices := notices w; editButtons := editButtons w;
     timers := timers w |}.

Definition set_editButtons (w : World) (bs : list bool) : World :=
  {| settings := settings w; livePreviewConfig := livePreviewConfig w;
     lockedFiles := lockedFiles w;
     temporarilyUnlockedFiles := temporarilyUnlockedFiles w;
     activeView := activeView w; fileCaches := fileCaches w;
     notices := notices w; editButtons := bs;
     timers := timers w |}.

(** [new Notice(n)] *)
Definition notify (w : World) (n : Notice) : World :=
  {| settings := settings w; livePreviewConfig := livePreviewConfig w;
     lockedFiles := lockedFiles w;
     temporarilyUnlockedFiles := temporarilyUnlockedFiles w;
     activeView := activeView w; fileCaches := fileCaches w;
     notices := notices w ++ [n]; editButtons := editButtons w;
     timers := timers w |}.

(** [setTimeout(cb, ms)] *)
Definition setTimeout (w : World) (cb : Callback) (ms : Z) : World :=
  {| settings := settings w; livePreviewConfig := livePreviewConfig w;
     lockedFiles := lockedFiles w;
     temporarilyUnlockedFiles := temporarilyUnlockedFiles w;
     activeView := activeView w; fileCaches := fileCaches w;
     notices := notices w; editButtons := editButtons w;
     timers := timers w ++ [(cb, ms)] |}.

(** A pending callback leaves the list when the host runs it. *)
Definition takeTimer (w : World) (i : nat) : World :=
  {| settings := settings w; livePreviewConfig := livePreviewConfig w;
     lockedFiles := lockedFiles w;
     temporarilyUnlockedFiles := temporarilyUnlockedFiles w;
     activeView := activeView w; fileCaches := fileCaches w;
     notices := notices w; editButtons := editButtons w;
     timers := firstn i (timers w) ++ skipn (S i) (timers w) |}.

Definition has (s : gset string) (x : string) : bool := bool_decide (x ∈ s).

(** [this.lockedFiles.add(filePath)] *)
Definition addLocked (w : World) (filePath : string) : World :=
  set_lockedFiles w ({[filePath]} ∪ lockedFiles w).

(** [this.app.metadataCache.getFileCache(file)] *)
Definition getFileCache (w : World) (f : TFile) : option FileCache :=
  fileCaches w !! path f.

(** A string in a boolean position: only the empty string is falsy. *)
Definition truthy (s : string) : bool := negb (String.eqb s "").

(** ** StatePatcher *)

(** The test at the top of the wrapper:
    [filePath && lockedFiles.has(filePath) &&
     !temporarilyUnlockedFiles.has(filePath)], with
    [filePath = view.file?.path]. *)
Definition guardApplies (w : World) (view : MarkdownView) : bool :=
  match file view with
  | Some f =>
      truthy (path f)
      && has (lockedFiles w) (path f)
      && negb (has (temporarilyUnlockedFiles w) (path f))
  | None => false
  end.

(** [state.mode && state.mode !== 'preview'] *)
Definition leavesPreview (st : ViewState) : bool :=
  match mode st with
  | Some Source => true
  | Some Preview => false
  | None => false
  end.

(** The host's own [setState]: an external collaborator, modelled as
    storing the requested state and recording the call. *)
Definition hostApply (view : MarkdownView) (st : ViewState)
    (res : ViewStateResult) : MarkdownView :=
  {| file := file view; liveState := st; setState := setState view;
     _originalSetState := _originalSetState view;
     hostCalls := hostCalls view ++ [(st, res)] |}.

(** Calling a setter on a view.  The wrapper reads the two sets of the
    plugin at the time of the call. *)
Fixpoint runSetter (f : Setter) (w : World) (view : MarkdownView)
    (st : ViewState) (res : ViewStateResult) : World * MarkdownView :=
  match f with
  | hostSetState => (w, hostApply view st res)
  | lockGuard original =>
      if guardApplies w view && leavesPreview st then
        runSetter original
          (notify w (NoticeLocked (basename <$> file view)))
          view (with_mode st Preview) res
      else runSetter original w view st res
  end.

(** [view.setState(state, result)] *)
Definition callSetState (w : World) (view : MarkdownView) (st : ViewState)
    (res : ViewStateResult) : World * MarkdownView :=
  runSetter (setState view) w view st res.

Definition patchViewStateMethod (view : MarkdownView) : MarkdownView :=
  match _originalSetState view with
  | None =>
      {| file := file view; liveState := liveState view;
         setState := lockGuard (setState view);
         _originalSetState := Some (setState view);
         hostCalls := hostCalls view |}
  | Some _ => view
  end.

(** ** EnforcementEngine *)

Definition isFileLocked (w : World) (filePath : string) : bool :=
  has (lockedFiles w) filePath.

Definition updateEditButtonsVisibility (w : World) : World :=
  match activeView w with
  | Some view =>
      match file view with
      | Some f =>
          let isLocked := isFileLocked w (path f) in
          let isTemporarilyUnlocked :=
            has (temporarilyUnlockedFiles w) (path f) in
          set_editButtons w
            (map (fun _ => isLocked && negb isTemporarilyUnlocked)
                 (editButtons w))
      | None => w
      end
  | None => w
  end.

Definition notifyIf (b : bool) (w : World) (n : Notice) : World :=
  if b then notify w n else w.

(** [setViewMode(view, viewMode)].  The view is passed in and handed back
    together with the plugin state. *)
Definition setViewMode (w : World) (view : MarkdownView) (vm : ViewMode)
  : World * MarkdownView :=
  let state := getState view in
  let view := patchViewStateMethod view in
  let name := basename <$> file view in
  let show := showModeChangeNotification (settings w) in
  let '(w, state) :=
    match vm with
    | Read =>
        (notifyIf show w (NoticeReadOnly name), with_mode state Preview)
    | Edit =>
        (notifyIf show w (NoticeEditMode name (livePreviewConfig w)),
         with_source (with_mode state Source) (negb (livePreviewConfig w)))
    | EditSource =>
        (notifyIf show w (NoticeSourceEdit name),
         with_source (with_mode state Source) true)
    | EditPreview =>
        (notifyIf show w (NoticeLivePreviewEdit name),
         with_source (with_mode state Source) false)
    | Lock =>
        let filePath := default "" (path <$> file view) in
        let w := addLocked w filePath in
        (notifyIf show w (NoticeLocked name), with_mode state Preview)
    end in
  callSetState w view state noHistory.

(** [currentState.mode !== 'preview'] *)
Definition notPreview (st : ViewState) : bool :=
  negb (bool_decide (mode st = Some Preview)).

(** The block used three times: if the view is not in preview, set
    [mode = 'preview'], call [setState] without history and raise the
    locked notice. *)
Definition forcePreview (w : World) (view : MarkdownView) (f : TFile)
  : World * MarkdownView :=
  let currentState := getState view in
  if notPreview currentState then
    let '(w, view) :=
      callSetState w view (with_mode currentState Preview) noHistory in
    (notify w (NoticeLocked (Some (basename f))), view)
  else (w, view).

Definition checkAndEnforceLockedFiles (w : World) : World :=
  match activeView w with
  | None => w
  | Some view =>
      match file view with
      | None => w
      | Some f =>
          let filePath := path f in
          if has (temporarilyUnlockedFiles w) filePath then w
          else
            let '(w, view) :=
              if has (lockedFiles w) filePath then forcePreview w view f
              else (w, view) in
            let fileCache := getFileCache w f in
            let vm := resolveViewMode (settings w) fileCache (path f) in
            let '(w, view) :=
              if bool_decide (vm = Some Lock)
                 && negb (has (lockedFiles w) filePath)
                 && negb (has (temporarilyUnlockedFiles w) filePath)
              then
                forcePreview (addLocked w filePath) view f
              else (w, view) in
            updateEditButtonsVisibility (set_activeView w (Some view))
      end
  end.

Definition handleLeafChange (w : World) : World :=
  let w :=
    if (0 <? size (temporarilyUnlockedFiles w))%nat
    then set_temporarilyUnlockedFiles w ∅
    else w in
  updateEditButtonsVisibility w.

(** ** SessionUnlock *)

Definition unlockFile (w : World) (filePath : string) : World :=
  let w := set_lockedFiles w (lockedFiles w ∖ {[filePath]}) in
  let w :=
    set_temporarilyUnlockedFiles w
      ({[filePath]} ∪ temporarilyUnlockedFiles w) in
  let w :=
    match activeView w with
    | Some view =>
        match file view with
        | Some f =>
            if String.eqb (path f) filePath then
              let state := getState view in
              let state :=
                with_source (with_mode state Source)
                            (negb (livePreviewConfig w)) in
              let '(w, view) := callSetState w view state noHistory in
              set_activeView w (Some view)
            else w
        | None => w
        end
    | None => w
    end in
  updateEditButtonsVisibility w.

(** ** Handlers registered by [onload] *)

(** The body of the [setTimeout] callback of the file-open handler. *)
Definition applyOnOpen (w : World) (f : TFile) : World :=
  let fileCache := getFileCache w f in
  match resolveViewMode (settings w) fileCache (path f) with
  | None => w
  | Some vm =>
      match activeView w with
      | None => w
      | Some view =>
          if bool_decide (file view = Some f) then
            let '(w, view) := setViewMode w view vm in
            updateEditButtonsVisibility (set_activeView w (Some view))
          else w
      end
  end.

(** The body of the delayed callback of the second layout-change
    handler. *)
Definition enforceActiveLock (w : World) : World :=
  match activeView w with
  | Some view =>
      match file view with
      | Some f =>
          let filePath := path f in
          let isLocked := has (lockedFiles w) filePath in
          let isTemporarilyUnlocked :=
            has (temporarilyUnlockedFiles w) filePath in
          if isLocked && negb isTemporarilyUnlocked then
            let currentState := getState view in
            if notPreview currentState then
              let '(w, view) :=
                callSetState w view (with_mode currentState Preview)
                             noHistory in
              set_activeView w (Some view)
            else w
          else w
      | None => w
      end
  | None => w
  end.

Definition runCallback (cb : Callback) (w : World) : World :=
  match cb with
  | CbApplyOnOpen f => applyOnOpen w f
  | CbCheckAndEnforce => checkAndEnforceLockedFiles w
  | CbEnforceActiveLock => enforceActiveLock w
  end.

(** What the host can deliver to the plugin: the workspace and metadata
    events, the tick of the interval, and the expiry of the [i]-th pending
    [setTimeout] (in any order the host likes). *)
Inductive Event : Type :=
| FileOpen (f : option TFile)
| LayoutChange
| ActiveLeafChange
| Resize
| IntervalTick
| MetadataChanged (f : TFile)
| TimerFires (i : nat).

(** The statements a handler executes, in order. *)
Inductive Call : Type :=
| CallCheckAndEnforceLockedFiles
| CallHandleLeafChange
| CallUpdateEditButtonsVisibility
| CallSetTimeout (cb : Callback) (ms : Z)
| CallTakeTimer (i : nat)
| CallCallback (cb : Callback).

#[global] Instance Callback_eq_dec : EqDecision Callback.
Proof. solve_decision. Defined.

#[global] Instance Call_eq_dec : EqDecision Call.
Proof. solve_decision. Defined.

#[global] Instance Event_eq_dec : EqDecision Event.
Proof. solve_decision. Defined.

(** The calls made by the handlers of an event, in registration order.
    Layout-change has two handlers; the interval callback tests
    [temporarilyUnlockedFiles.size === 0] before enforcing. *)
Definition handlerCalls (e : Event) (w : World) : list Call :=
  match e with
  | FileOpen None => []
  | FileOpen (Some f) =>
      if String.eqb (extension f) "md"
      then [CallSetTimeout (CbApplyOnOpen f) 100]
      else []
  | LayoutChange =>
      [CallCheckAndEnforceLockedFiles; CallSetTimeout CbEnforceActiveLock 10]
  | ActiveLeafChange =>
      [CallCheckAndEnforceLockedFiles; CallHandleLeafChange]
  | Resize => [CallCheckAndEnforceLockedFiles]
  | IntervalTick =>
      if (size (temporarilyUnlockedFiles w) =? 0)%nat
      then [CallCheckAndEnforceLockedFiles; CallUpdateEditButtonsVisibility]
      else [CallUpdateEditButtonsVisibility]
  | MetadataChanged f =>
      if String.eqb (extension f) "md"
      then [CallSetTimeout CbCheckAndEnforce 100]
      else []
  | TimerFires i =>
      match nth_error (timers w) i with
      | Some (cb, _) => [CallTakeTimer i; CallCallback cb]
      | None => []
      end
  end.

Definition runCall (w : World) (c : Call) : World :=
  match c with
  | CallCheckAndEnforceLockedFiles => checkAndEnforceLockedFiles w
  | CallHandleLeafChange => handleLeafChange w
  | CallUpdateEditButtonsVisibility => updateEditButtonsVisibility w
  | CallSetTimeout cb ms => setTimeout w cb ms
  | CallTakeTimer i => takeTimer w i
  | CallCallback cb => runCallback cb w
  end.

Definition dispatch (e : Event) (w : World) : World :=
  fold_left runCall (handlerCalls e w) w.

(** A sequence of events, oldest first. *)
Definition run (es : list Event) (w : World) : World :=
  fold_left (fun w e => dispatch e w) es w.

(** ** Start-up, shutdown and the input filters *)

(** The body of the [forEach] of [initializeLockedFiles], for one open
    markdown view. *)
Definition initializeLeaf (w : World) (view : MarkdownView)
  : World * MarkdownView :=
  match file view with
  | Some f =>
      let fileCache := getFileCache w f in
      let vm := resolveViewMode (settings w) fileCache (path f) in
      if bool_decide (vm = Some Lock) then
        let w := addLocked w (path f) in
        let currentState := getState view in
        if notPreview currentState then
          let '(w, view) :=
            callSetState w view (with_mode currentState Preview) noHistory in
          (notifyIf (showModeChangeNotification (settings w)) w
             (NoticeLocked (Some (basename f))), view)
        else (w, view)
      else (w, view)
  | None => (w, view)
  end.

(** [initializeLockedFiles()], over the views of
    [getLeavesOfType('markdown')], in order; the views are handed back as
    the scan leaves them.  The function does not ask which view is
    active. *)
Fixpoint initializeLockedFiles (w : World) (leaves : list MarkdownView)
  : World * list MarkdownView :=
  match leaves with
  | [] => (w, [])
  | view :: rest =>
      let '(w, view) := initializeLeaf w view in
      let '(w, rest) := initializeLockedFiles w rest in
      (w, view :: rest)
  end.





(** ** The older plugin class kept in the repository ([MyPlugin]) *)

Module Legacy.

(** There the mode of a folder rule is a plain string, and the
    frontmatter value is used as it is. *)
Record FolderViewMode : Type := mkFolderViewMode {
  folderPath : string;
  viewMode : string
}.

Definition folderMatches (folder : string) (r : FolderViewMode) : bool :=
  String.eqb folder (folderPath r)
  || Js.startsWith folder (folderPath r ++ "/").

Fixpoint scanFolderViewModes (folder : string)
    (rules : list FolderViewMode) : option string :=
  match rules with
  | [] => None
  | r :: rest =>
      if folderMatches folder r then Some (viewMode r)
      else scanFolderViewModes folder rest
  end.

Definition getFolderViewMode (rules : list FolderViewMode)
    (filePath : string) : option string :=
  scanFolderViewModes (containingFolder filePath) rules.

(** [!viewMode] on whatever the frontmatter holds. *)
Definition falsy (v : JsValue) : bool :=
  match v with
  | JsUndefined | JsNull => true
  | JsBool b => negb b
  | JsNumber n => (n =? 0)%Z
  | JsString s => String.eqb s ""
  | JsObject => false
  end.

(** The resolution block of the file-open handler of [MyPlugin]:
    [viewMode = frontmatter[name]], then the folder rules only
    [if (!viewMode)]. *)
Definition resolveViewMode (metaPropertyName : string)
    (rules : list FolderViewMode) (fileCache : option FileCache)
    (filePath : string) : JsValue :=
  let viewMode :=
    match fileCache with
    | Some fc =>
        match frontmatter fc with
        | Some fm => getProperty fm metaPropertyName
        | None => JsUndefined
        end
    | None => JsUndefined
    end in
  if falsy viewMode then
    match getFolderViewMode rules filePath with
    | Some m => JsString m
    | None => JsUndefined
    end
  else viewMode.

End Legacy.

(** ** Vocabulary of the statements *)

Definition with_folderViewModes (s : ViewModeSettings)
    (rules : list FolderViewMode) : ViewModeSettings :=
  {| metaPropertyName := metaPropertyName s;
     showModeChangeNotification := showModeChangeNotification s;
     folderViewModes := rules;
     customYamlNames := customYamlNames s |}.

(** A rule covers a folder when its path is the folder, or a whole-segment
    prefix of it. *)
Definition ruleCovers (r : FolderViewMode) (folder : string) : Prop :=
  folder = folderPath r \/ exists rest, folder = folderPath r ++ "/" ++ rest.

(** The frontmatter names no configured token: there is no cache entry, no
    frontmatter, no such property, a value that is not a string, or a
    string that is none of the five tokens. *)
Definition noMatchingToken (s : ViewModeSettings)
    (fileCache : option FileCache) : Prop :=
  forall fc fm v,
    fileCache = Some fc ->
    frontmatter fc = Some fm ->
    fm !! metaPropertyName s = Some (JsString v) ->
    forall m, v <> tokenOf (customYamlNames s) m.

(** Position of a mode in the chain of tests of
    [convertYamlValueToViewMode]. *)
Definition testOrder (m : ViewMode) : nat :=
  match m with
  | Read => 0 | Edit => 1 | EditSource => 2 | EditPreview => 3 | Lock => 4
  end.

Definition distinctTokens (n : CustomYamlNames) : Prop :=
  forall m1 m2, tokenOf n m1 = tokenOf n m2 -> m1 = m2.

(** The document of the view is locked and not temporarily unlocked. *)
Definition enforcedLocked (w : World) (view : MarkdownView) : Prop :=
  exists f,
    file view = Some f
    /\ path f ∈ lockedFiles w
    /\ path f ∉ temporarilyUnlockedFiles w.

(** A view whose [setState] is the host's own and that was never patched,
    and one that [patchViewStateMethod] has wrapped. *)
Definition untouched (view : MarkdownView) : Prop :=
  setState view = hostSetState /\ _originalSetState view = None.

Definition patched (view : MarkdownView) : Prop :=
  setState view = lockGuard hostSetState
  /\ _originalSetState view = Some hostSetState.

(** The mode table of the specification (section 4.3), applied to the
    state read from the view: what [applyMode] is said to write. *)
Definition modeTable (livePreview : bool) (st : ViewState) (vm : ViewMode)
  : ViewState :=
  match vm with
  | Read | Lock =>
      {| mode := Some Preview; source := source st;
         otherKeys := otherKeys st |}
  | Edit =>
      {| mode := Some Source; source := Some (negb livePreview);
         otherKeys := otherKeys st |}
  | EditSource =>
      {| mode := Some Source; source := Some true;
         otherKeys := otherKeys st |}
  | EditPreview =>
      {| mode := Some Source; source := Some false;
         otherKeys := otherKeys st |}
  end.

(** The state with some notices added: all that a call of [setState] can
    do to the plugin and the application. *)
Definition addNotices (w : World) (ns : list Notice) : World :=
  {| settings := settings w; livePreviewConfig := livePreviewConfig w;
     lockedFiles := lockedFiles w;
     temporarilyUnlockedFiles := temporarilyUnlockedFiles w;
     activeView := activeView w; fileCaches := fileCaches w;
     notices := notices w ++ ns; editButtons := editButtons w;
     timers := timers w |}.

(** The state with the edit buttons forgotten: what
    [updateEditButtonsVisibility] cannot change. *)
Definition withoutButtons (w : World) : World := set_editButtons w [].

(** No document is in both sets of the registry. *)
Definition disjointRegistry (w : World) : Prop :=
  forall x, x ∈ lockedFiles w -> x ∉ temporarilyUnlockedFiles w.

(** The policy of the document of a view resolves to lock. *)
Definition policyIsLock (w : World) (view : MarkdownView) : Prop :=
  exists f,
    file view = Some f
    /\ resolveViewMode (settings w) (getFileCache w f) (path f) = Some Lock.

(** The event is not the expiry of a timer set by the file-open handler. *)
Definition notFileOpenTimer (e : Event) (w : World) : Prop :=
  forall i f ms,
    e = TimerFires i -> nth_error (timers w) i <> Some (CbApplyOnOpen f, ms).

(** ** Sample states *)

Definition fileA : TFile :=
  {| path := "A.md"; basename := "A"; extension := "md" |}.

Definition fileB : TFile :=
  {| path := "B.md"; basename := "B"; extension := "md" |}.

Definition fileD : TFile :=
  {| path := "D.md"; basename := "D"; extension := "md" |}.

Definition previewState : ViewState :=
  {| mode := Some Preview; source := Some false; otherKeys := [] |}.

Definition sourceState : ViewState :=
  {| mode := Some Source; source := Some false; otherKeys := [] |}.

Definition referenceRule : FolderViewMode :=
  {| folderPath := "Reference"; viewMode := Read |}.


(** A cache entry whose frontmatter has one property. *)
Definition frontmatterOf (name : string) (v : JsValue) : FileCache :=
  {| frontmatter := Some {[ name := v ]} |}.

(** The same folder rule as the older class stores it. *)
Definition legacyReferenceRule : Legacy.FolderViewMode :=
  {| Legacy.folderPath := "Reference"; Legacy.viewMode := "read" |}.

(** A view as the host creates it. *)
Definition freshView (f : TFile) (st : ViewState) : MarkdownView :=
  {| file := Some f; liveState := st; setState := hostSetState;
     _originalSetState := None; hostCalls := [] |}.

(** The plugin just loaded, with one active view. *)
Definition loaded (s : ViewModeSettings) (caches : gmap string FileCache)
    (view : option MarkdownView) : World :=
  {| settings := s; livePreviewConfig := true;
     lockedFiles := ∅; temporarilyUnlockedFiles := ∅;
     activeView := view; fileCaches := caches;
     notices := []; editButtons := [false]; timers := [] |}.

(** The host replaces the cache entry of a file (its frontmatter was
    edited). *)
Definition set_fileCache (w : World) (p : string) (fc : FileCache) : World :=
  {| settings := settings w; livePreviewConfig := livePreviewConfig w;
     lockedFiles := lockedFiles w;
     temporarilyUnlockedFiles := temporarilyUnlockedFiles w;
     activeView := activeView w; fileCaches := <[p := fc]> (fileCaches w);
     notices := notices w; editButtons := editButtons w;
     timers := timers w |}.

(** Document D carries [view_mode: locked] and is open in preview. *)
Definition worldD : World :=
  loaded DEFAULT_SETTINGS
    {[ "D.md" := frontmatterOf "view_mode" (JsString "locked") ]}
    (Some (freshView fileD previewState)).

(** D is in [lockedFiles] and open in a fresh view. *)
Definition worldLockedD : World := addLocked worldD "D.md".

(** D was opened while its policy was lock; its frontmatter then changed
    to the token of Edit. *)
Definition worldRetagged : World :=
  set_fileCache (run [FileOpen (Some fileD); TimerFires 0] worldD)
    "D.md" (frontmatterOf "view_mode" (JsString "edit_mode")).

(** A was opened under a lock policy and then unlocked; the host has made
    B active, whose policy is lock and which is shown in source mode. *)
Definition worldAB : World :=
  set_activeView
    (unlockFile
       (run [FileOpen (Some fileA); TimerFires 0]
          (loaded DEFAULT_SETTINGS
             {[ "A.md" := frontmatterOf "view_mode" (JsString "locked");
                "B.md" := frontmatterOf "view_mode" (JsString "locked") ]}
             (Some (freshView fileA previewState))))
       "A.md")
    (Some (freshView fileB sourceState)).

(** * Properties *)

(** Case analysis on every [match] of the goal but the calls of
    [setState]. *)
Ltac split_cases :=
  repeat match goal with
    | |- context [match ?x with _ => _ end] =>
        lazymatch x with
        | callSetState _ _ _ _ => fail
        | _ => destruct x eqn:?
        end
    end.


(** ** Strings *)

Section StringFacts.

Lemma append_cons (a : ascii) (s t : string) :
  String a s ++ t = String a (s ++ t).
Proof. reflexivity. Qed.

Lemma lastIndexOf_lower (c : ascii) (s : string) : -1 <= Js.lastIndexOf c s.
Proof.
  induction s as [|a s IH]; simpl; [lia|].
  destruct (0 <=? Js.lastIndexOf c s) eqn:E.
  - apply Z.leb_le in E. lia.
  - destruct (Ascii.eqb a c); lia.
Qed.

Lemma lastIndexOf_absent (c : ascii) (s : string) :
  ~ In c (list_ascii_of_string s) -> Js.lastIndexOf c s = -1.
Proof.
  induction s as [|a s IH]; simpl; intros H; [reflexivity|].
  rewrite IH by tauto. simpl.
  destruct (Ascii.eqb_spec a c) as [->|]; [tauto | reflexivity].
Qed.

Lemma lastIndexOf_last (c : ascii) (dir name : string) :
  ~ In c (list_ascii_of_string name) ->
  Js.lastIndexOf c (dir ++ String c name) = Z.of_nat (String.length dir).
Proof.
  intros H. induction dir as [|a dir IH].
  - simpl. rewrite (lastIndexOf_absent _ _ H). simpl.
    now rewrite Ascii.eqb_refl.
  - change (String a dir ++ String c name)
      with (String a (dir ++ String c name)).
    cbn [Js.lastIndexOf String.length]. rewrite IH.
    replace (0 <=? Z.of_nat (String.length dir)) with true
      by (symmetry; apply Z.leb_le; lia).
    lia.
Qed.

Lemma append_assoc (s t u : string) : (s ++ t) ++ u = s ++ (t ++ u).
Proof.
  induction s as [|a s IH]; [reflexivity|].
  rewrite !append_cons. now rewrite IH.
Qed.

Lemma substring_take (s1 s2 : string) :
  String.substring 0 (String.length s1) (s1 ++ s2) = s1.
Proof.
  induction s1 as [|a s1 IH]; simpl.
  - now destruct s2.
  - now rewrite IH.
Qed.

Lemma substring_nothing (s : string) : String.substring 0 0 s = "".
Proof. now destruct s. Qed.

Lemma length_append (s1 s2 : string) :
  String.length (s1 ++ s2) = (String.length s1 + String.length s2)%nat.
Proof.
  induction s1 as [|a s1 IH]; simpl; [reflexivity | now rewrite IH].
Qed.

(** A path without '/' lies in the folder named by the empty string. *)
Lemma containingFolder_root (name : string) :
  ~ In slash (list_ascii_of_string name) -> containingFolder name = "".
Proof.
  intros H. unfold containingFolder, Js.substring, Js.clamp.
  rewrite (lastIndexOf_absent _ _ H).
  replace (Z.max (-1) 0) with 0 by reflexivity.
  replace (Z.max 0 0) with 0 by reflexivity.
  rewrite !Z.min_l by lia. rewrite Z.max_id, Z.sub_diag.
  apply substring_nothing.
Qed.

(** Cutting the file name off [dir/name] gives [dir]. *)
Lemma containingFolder_child (dir name : string) :
  ~ In slash (list_ascii_of_string name) ->
  containingFolder (dir ++ "/" ++ name) = dir.
Proof.
  intros H. unfold containingFolder, Js.substring, Js.clamp.
  change ("/" ++ name) with (String slash name).
  rewrite (lastIndexOf_last _ _ _ H), length_append.
  cbn [String.length].
  set (n := String.length dir).
  replace (Z.max 0 0) with 0 by reflexivity.
  rewrite (Z.max_l (Z.of_nat n)) by lia.
  rewrite (Z.min_l 0) by lia.
  rewrite (Z.min_l (Z.of_nat n)) by lia.
  rewrite (Z.min_l 0) by lia.
  rewrite (Z.max_r 0) by lia.
  rewrite Z.sub_0_r, Nat2Z.id. simpl Z.to_nat.
  apply substring_take.
Qed.

Lemma prefix_app (p s : string) :
  String.prefix p s = true <-> exists rest, s = p ++ rest.
Proof.
  revert s. induction p as [|a p IH]; intros s.
  - split; [intros _; exists s; reflexivity | intros _; now destruct s].
  - destruct s as [|b s]; simpl.
    + split; [discriminate|].
      intros [rest Hr]. rewrite append_cons in Hr. discriminate.
    + destruct (ascii_dec a b) as [->|Hab].
      * rewrite IH.
        split; intros [rest Hr]; exists rest;
          rewrite append_cons in *; congruence.
      * split; [discriminate|].
        intros [rest Hr]. rewrite append_cons in Hr. congruence.
Qed.

(** The test of the folder loop, in words: the folder is the rule's
    path, or the rule's path followed by '/' and anything. *)
Lemma folderMatches_spec (folder : string) (r : FolderViewMode) :
  folderMatches folder r = true <->
  folder = folderPath r \/
  exists rest, folder = folderPath r ++ "/" ++ rest.
Proof.
  unfold folderMatches, Js.startsWith.
  rewrite orb_true_iff, String.eqb_eq, prefix_app.
  split; (intros [H|[rest H]]; [now left | right; exists rest]).
  - now rewrite H, append_assoc.
  - now rewrite H, append_assoc.
Qed.

End StringFacts.

(** ** ModeResolver *)

Section Resolver.

Variable s : ViewModeSettings.

Lemma isValidViewMode_token (v : string) :
  isValidViewMode s (JsString v) = true <->
  exists m, v = tokenOf (customYamlNames s) m.
Proof.
  simpl. rewrite !orb_true_iff, !String.eqb_eq. split.
  - intros [[[[H|H]|H]|H]|H];
      [exists Read | exists Edit | exists EditSource
      | exists EditPreview | exists Lock]; exact H.
  - intros [[] H]; simpl in H; tauto.
Qed.

(** [convertYamlValueToViewMode] answers with the first mode, in the
    order of its tests, whose token is the value. *)
Lemma convert_first (v : string) (m : ViewMode) :
  v = tokenOf (customYamlNames s) m ->
  exists m0,
    convertYamlValueToViewMode s v = Some m0
    /\ tokenOf (customYamlNames s) m0 = v
    /\ (testOrder m0 <= testOrder m)%nat.
Proof.
  intros Hm. unfold convertYamlValueToViewMode. cbv zeta.
  destruct (String.eqb_spec v (read (customYamlNames s))) as [E1|N1].
  { exists Read. simpl. repeat split; [easy | lia]. }
  destruct (String.eqb_spec v (edit (customYamlNames s))) as [E2|N2].
  { exists Edit. destruct m; simpl in *; repeat split;
      solve [easy | lia | congruence]. }
  destruct (String.eqb_spec v (editSource (customYamlNames s)))
    as [E3|N3].
  { exists EditSource. destruct m; simpl in *; repeat split;
      solve [easy | lia | congruence]. }
  destruct (String.eqb_spec v (editPreview (customYamlNames s)))
    as [E4|N4].
  { exists EditPreview. destruct m; simpl in *; repeat split;
      solve [easy | lia | congruence]. }
  destruct (String.eqb_spec v (lock (customYamlNames s))) as [E5|N5].
  { exists Lock. destruct m; simpl in *; repeat split;
      solve [easy | lia | congruence]. }
  destruct m; simpl in Hm; congruence.
Qed.

Lemma frontmatterViewMode_token (fc : FileCache)
    (fm : gmap string JsValue) (v : string) :
  frontmatter fc = Some fm ->
  fm !! metaPropertyName s = Some (JsString v) ->
  (exists m, v = tokenOf (customYamlNames s) m) ->
  frontmatterViewMode s (Some fc) = convertYamlValueToViewMode s v.
Proof.
  intros Hfm Hv Htok. unfold frontmatterViewMode, getProperty.
  rewrite Hfm, Hv.
  change (default JsUndefined (Some (JsString v))) with (JsString v).
  cbv zeta.
  apply isValidViewMode_token in Htok. now rewrite Htok.
Qed.

Lemma frontmatterViewMode_none (fileCache : option FileCache) :
  noMatchingToken s fileCache -> frontmatterViewMode s fileCache = None.
Proof.
  intros H. unfold frontmatterViewMode, getProperty.
  destruct fileCache as [fc|]; [|reflexivity].
  destruct (frontmatter fc) as [fm|] eqn:Hfm; [|reflexivity].
  destruct (fm !! metaPropertyName s) as [[| | | |v|]|] eqn:Hv;
    try reflexivity.
  change (default JsUndefined (Some (JsString v))) with (JsString v).
  cbv zeta.
  destruct (isValidViewMode s (JsString v)) eqn:Hvalid; [|reflexivity].
  apply isValidViewMode_token in Hvalid as [m Hm].
  now destruct (H fc fm v eq_refl Hfm Hv m).
Qed.

End Resolver.

Section FolderScan.

Variable folder : string.

Lemma scan_first_match (pre post : list FolderViewMode)
    (r : FolderViewMode) :
  (forall q, In q pre -> ~ ruleCovers q folder) ->
  ruleCovers r folder ->
  scanFolderViewModes folder (pre ++ r :: post) = Some (viewMode r).
Proof.
  intros Hpre Hr. induction pre as [|q pre IH]; simpl.
  - apply folderMatches_spec in Hr. now rewrite Hr.
  - destruct (folderMatches folder q) eqn:Hq.
    + apply folderMatches_spec in Hq.
      now destruct (Hpre q (or_introl eq_refl)).
    + apply IH. intros q' Hq'. apply Hpre. now right.
Qed.

Lemma scan_no_match (rules : list FolderViewMode) :
  (forall q, In q rules -> ~ ruleCovers q folder) ->
  scanFolderViewModes folder rules = None.
Proof.
  induction rules as [|q rules IH]; simpl; intros H; [reflexivity|].
  destruct (folderMatches folder q) eqn:Hq.
  - apply folderMatches_spec in Hq.
    now destruct (H q (or_introl eq_refl)).
  - apply IH. intros q' Hq'. apply H. now right.
Qed.

Lemma scan_skip (pre post : list FolderViewMode) (r : FolderViewMode) :
  ~ ruleCovers r folder ->
  scanFolderViewModes folder (pre ++ r :: post)
  = scanFolderViewModes folder (pre ++ post).
Proof.
  intros Hr. induction pre as [|q pre IH]; simpl.
  - destruct (folderMatches folder r) eqn:E; [|reflexivity].
    apply folderMatches_spec in E. contradiction.
  - now rewrite IH.
Qed.

End FolderScan.

Lemma similar_not_covered (m : ViewMode) :
  ~ ruleCovers {| folderPath := "Similar"; viewMode := m |} "SimilarName".
Proof.
  intros H. apply folderMatches_spec in H. vm_compute in H. discriminate.
Qed.


(** At the vault root only a rule with the empty path applies. *)
Lemma covers_root (r : FolderViewMode) :
  ruleCovers r "" <-> folderPath r = "".
Proof.
  unfold ruleCovers. split.
  - intros [H|[rest H]]; [now symmetry|].
    destruct (folderPath r); [discriminate H | rewrite append_cons in H;
                                               discriminate H].
  - intros ->. now left.
Qed.

(** Without a matching token the folder scan decides. *)
Lemma resolve_by_folder_rules (s : ViewModeSettings)
    (fileCache : option FileCache) (filePath : string) :
  noMatchingToken s fileCache ->
  resolveViewMode s fileCache filePath
  = scanFolderViewModes (containingFolder filePath) (folderViewModes s).
Proof.
  intros Hnone. unfold resolveViewMode.
  now rewrite (frontmatterViewMode_none s).
Qed.

(** C2. When the frontmatter holds the configured property with a string
    equal to one of the five configured tokens, resolution returns a mode
    mapped to that token -- the first one in the order read, edit,
    editSource, editPreview, lock, hence the one mapped to it when the
    tokens differ -- whatever the folder rules and the path are. *)
Theorem frontmatter_token_wins (s : ViewModeSettings) (fc : FileCache)
    (fm : gmap string JsValue) (v : string) (m : ViewMode) :
  frontmatter fc = Some fm ->
  fm !! metaPropertyName s = Some (JsString v) ->
  v = tokenOf (customYamlNames s) m ->
  exists m0,
    tokenOf (customYamlNames s) m0 = v
    /\ (testOrder m0 <= testOrder m)%nat
    /\ (distinctTokens (customYamlNames s) -> m0 = m)
    /\ forall rules filePath,
         resolveViewMode (with_folderViewModes s rules) (Some fc) filePath
         = Some m0.
Proof.
  intros Hfm Hv Hm.
  destruct (convert_first s v m Hm) as (m0 & Hconv & Htok & Hord).
  exists m0. repeat split; try assumption.
  - intros Hd. apply Hd. congruence.
  - intros rules filePath. unfold resolveViewMode.
    rewrite (frontmatterViewMode_token (with_folderViewModes s rules)
               fc fm v Hfm Hv (ex_intro _ m Hm)).
    change (convertYamlValueToViewMode (with_folderViewModes s rules) v)
      with (convertYamlValueToViewMode s v).
    now rewrite Hconv.
Qed.

Lemma frontmatter_token_wins_witness :
  exists m0,
    tokenOf (customYamlNames DEFAULT_SETTINGS) m0 = "locked"
    /\ (testOrder m0 <= testOrder Lock)%nat
    /\ (distinctTokens (customYamlNames DEFAULT_SETTINGS) -> m0 = Lock)
    /\ forall rules filePath,
         resolveViewMode (with_folderViewModes DEFAULT_SETTINGS rules)
           (Some (frontmatterOf "view_mode" (JsString "locked"))) filePath
         = Some m0.
Proof.
  apply (frontmatter_token_wins DEFAULT_SETTINGS
           (frontmatterOf "view_mode" (JsString "locked"))
           {[ "view_mode" := JsString "locked" ]} "locked" Lock);
    reflexivity.
Defined.

(** C3. With no matching frontmatter token, resolution walks the folder
    rules in list order and returns the mode of the first rule whose path
    is the containing folder of the document or a prefix of it that ends
    at a '/'; it returns nothing when no rule is such.  The containing
    folder is what the path says: [dir] for the document [dir + "/" + name]
    where [name] has no '/', and the empty string for the document [name]
    at the vault root.  So a document at [folderPath + "/sub/" + name] gets
    the mode of the rule unless an earlier rule covers [folderPath + "/sub"],
    and a rule for "Similar" has no effect on a document in folder
    "SimilarName". *)
Theorem folder_rule_first_match (s : ViewModeSettings)
    (fileCache : option FileCache) (dir name : string) :
  noMatchingToken s fileCache ->
  ~ In slash (list_ascii_of_string name) ->
  (forall (pre : list FolderViewMode) r post,
      folderViewModes s = (pre ++ r :: post)%list ->
      (forall q, In q pre -> ~ ruleCovers q dir) ->
      ruleCovers r dir ->
      resolveViewMode s fileCache (dir ++ "/" ++ name) = Some (viewMode r))
  /\ ((forall q, In q (folderViewModes s) -> ~ ruleCovers q dir) ->
      resolveViewMode s fileCache (dir ++ "/" ++ name) = None)
  /\ (forall (pre : list FolderViewMode) r post,
        folderViewModes s = (pre ++ r :: post)%list ->
        (forall q, In q pre -> folderPath q <> "") ->
        folderPath r = "" ->
        resolveViewMode s fileCache name = Some (viewMode r))
  /\ ((forall q, In q (folderViewModes s) -> folderPath q <> "") ->
      resolveViewMode s fileCache name = None)
  /\ (forall (pre : list FolderViewMode) r post,
        folderViewModes s = (pre ++ r :: post)%list ->
        (forall q, In q pre -> ~ ruleCovers q (folderPath r ++ "/sub")) ->
        resolveViewMode s fileCache (folderPath r ++ "/sub/" ++ name)
        = Some (viewMode r))
  /\ (forall (pre post : list FolderViewMode) m,
        resolveViewMode
          (with_folderViewModes s
             (pre ++ {| folderPath := "Similar"; viewMode := m |} :: post))
          fileCache ("SimilarName" ++ "/" ++ name)
        = resolveViewMode (with_folderViewModes s (pre ++ post))
            fileCache ("SimilarName" ++ "/" ++ name)).
Proof.
  intros Hnone Hname.
  assert (Hres : forall rules filePath,
             resolveViewMode (with_folderViewModes s rules) fileCache filePath
             = scanFolderViewModes (containingFolder filePath) rules)
    by (intros rules filePath;
        now rewrite (resolve_by_folder_rules (with_folderViewModes s rules))).
  pose proof (containingFolder_child dir name Hname) as Hdir.
  pose proof (containingFolder_root name Hname) as Hroot.
  split; [|split; [|split; [|split; [|split]]]].
  - intros pre r post Hrules Hpre Hr.
    rewrite (resolve_by_folder_rules s _ _ Hnone), Hdir, Hrules.
    now apply scan_first_match.
  - intros Hall. rewrite (resolve_by_folder_rules s _ _ Hnone), Hdir.
    now apply scan_no_match.
  - intros pre r post Hrules Hpre Hr.
    rewrite (resolve_by_folder_rules s _ _ Hnone), Hroot, Hrules.
    apply scan_first_match.
    + intros q Hq Hcov. apply (Hpre q Hq). now apply covers_root.
    + now apply covers_root.
  - intros Hall. rewrite (resolve_by_folder_rules s _ _ Hnone), Hroot.
    apply scan_no_match. intros q Hq Hcov.
    apply (Hall q Hq). now apply covers_root.
  - intros pre r post Hrules Hpre.
    rewrite (resolve_by_folder_rules s _ _ Hnone), Hrules.
    replace (folderPath r ++ "/sub/" ++ name)
      with ((folderPath r ++ "/sub") ++ "/" ++ name)
      by (now rewrite !append_assoc).
    rewrite (containingFolder_child _ name Hname).
    apply scan_first_match; [exact Hpre|].
    right. now exists "sub".
  - intros pre post m.
    rewrite !Hres, (containingFolder_child "SimilarName" name Hname).
    apply scan_skip, similar_not_covered.
Qed.

Lemma folder_rule_first_match_witness :
  (noMatchingToken (with_folderViewModes DEFAULT_SETTINGS [referenceRule])
     None
   /\ ~ In slash (list_ascii_of_string "x.md"))
  /\ resolveViewMode (with_folderViewModes DEFAULT_SETTINGS [referenceRule])
       None "Reference/x.md" = Some Read
  /\ resolveViewMode (with_folderViewModes DEFAULT_SETTINGS [referenceRule])
       None "Reference/sub/x.md" = Some Read
  /\ resolveViewMode (with_folderViewModes DEFAULT_SETTINGS [referenceRule])
       None "References/x.md" = None
  /\ resolveViewMode (with_folderViewModes DEFAULT_SETTINGS [referenceRule])
       None "x.md" = None
  /\ resolveViewMode
       (with_folderViewModes DEFAULT_SETTINGS
          [{| folderPath := "Reference/x.md"; viewMode := Read |}])
       None "Reference/x.md" = None
  /\ resolveViewMode
       (with_folderViewModes DEFAULT_SETTINGS
          [{| folderPath := "Reference/"; viewMode := Read |}])
       None "Reference/x.md" = None.
Proof.
  assert (H : forall rules,
             noMatchingToken (with_folderViewModes DEFAULT_SETTINGS rules)
               None)
    by (intros rules fc fm v Hfc; discriminate).
  assert (Hname : ~ In slash (list_ascii_of_string "x.md"))
    by (vm_compute; intros [E|[E|[E|[E|[]]]]]; discriminate).
  split; [split; [apply H | exact Hname]|].
  split; [|split; [|split; [|split; [|split]]]].
  - apply (proj1 (folder_rule_first_match _ None "Reference" "x.md"
                    (H [referenceRule]) Hname) [] referenceRule []).
    + reflexivity.
    + intros q [].
    + left. reflexivity.
  - apply (proj1 (proj2 (proj2 (proj2 (proj2
             (folder_rule_first_match _ None "Reference" "x.md"
                (H [referenceRule]) Hname))))) [] referenceRule []).
    + reflexivity.
    + intros q [].
  - apply (proj1 (proj2 (folder_rule_first_match _ None "References" "x.md"
                           (H [referenceRule]) Hname))).
    intros q [<-|[]] Hcov. apply folderMatches_spec in Hcov.
    vm_compute in Hcov. discriminate.
  - apply (proj1 (proj2 (proj2 (proj2
             (folder_rule_first_match _ None "Reference" "x.md"
                (H [referenceRule]) Hname))))).
    intros q [<-|[]]. discriminate.
  - apply (proj1 (proj2 (folder_rule_first_match _ None "Reference" "x.md"
                           (H [_]) Hname))).
    intros q [<-|[]] Hcov. apply folderMatches_spec in Hcov.
    vm_compute in Hcov. discriminate.
  - apply (proj1 (proj2 (folder_rule_first_match _ None "Reference" "x.md"
                           (H [_]) Hname))).
    intros q [<-|[]] Hcov. apply folderMatches_spec in Hcov.
    vm_compute in Hcov. discriminate.
Defined.

(** C8 (as the code has it).  In [ViewModePlugin], a string under the
    configured property that is none of the five tokens is treated as if
    the property were not there: resolution is what the folder rules give,
    scanned in list order, first match first -- for the document
    [dir + "/" + name], the first rule that covers [dir]. *)
Theorem unrecognized_token_ignored (s : ViewModeSettings)
    (fm : gmap string JsValue) (v : string) (filePath : string) :
  fm !! metaPropertyName s = Some (JsString v) ->
  (forall m, v <> tokenOf (customYamlNames s) m) ->
  resolveViewMode s (Some {| frontmatter := Some fm |}) filePath
  = resolveViewMode s
      (Some {| frontmatter := Some (delete (metaPropertyName s) fm) |})
      filePath
  /\ resolveViewMode s (Some {| frontmatter := Some fm |}) filePath
     = getFolderViewMode s filePath
  /\ (forall (pre : list FolderViewMode) r post,
        folderViewModes s = (pre ++ r :: post)%list ->
        (forall q, In q pre -> ~ ruleCovers q (containingFolder filePath)) ->
        ruleCovers r (containingFolder filePath) ->
        resolveViewMode s (Some {| frontmatter := Some fm |}) filePath
        = Some (viewMode r))
  /\ ((forall q, In q (folderViewModes s) ->
                 ~ ruleCovers q (containingFolder filePath)) ->
      resolveViewMode s (Some {| frontmatter := Some fm |}) filePath = None)
  /\ (forall (dir name : string) (pre : list FolderViewMode) r post,
        ~ In slash (list_ascii_of_string name) ->
        folderViewModes s = (pre ++ r :: post)%list ->
        (forall q, In q pre -> ~ ruleCovers q dir) ->
        ruleCovers r dir ->
        resolveViewMode s (Some {| frontmatter := Some fm |})
          (dir ++ "/" ++ name)
        = Some (viewMode r))
  /\ (forall dir name : string,
        ~ In slash (list_ascii_of_string name) ->
        (forall q, In q (folderViewModes s) -> ~ ruleCovers q dir) ->
        resolveViewMode s (Some {| frontmatter := Some fm |})
          (dir ++ "/" ++ name)
        = None).
Proof.
  intros Hv Hnot.
  assert (Hpresent : noMatchingToken s (Some {| frontmatter := Some fm |})).
  { intros fc fm' v' [= <-] [= <-] Hv' m. rewrite Hv in Hv'.
    injection Hv' as <-. apply Hnot. }
  assert (Habsent : noMatchingToken s
            (Some {| frontmatter :=
                       Some (delete (metaPropertyName s) fm) |})).
  { intros fc fm' v' [= <-] [= <-] Hv'.
    now rewrite lookup_delete_eq in Hv'. }
  pose proof (resolve_by_folder_rules s _ filePath Hpresent) as Hscan.
  split; [|split; [|split; [|split; [|split]]]].
  - rewrite Hscan. symmetry. now apply resolve_by_folder_rules.
  - exact Hscan.
  - intros pre r post Hrules Hpre Hr. rewrite Hscan, Hrules.
    now apply scan_first_match.
  - intros Hall. rewrite Hscan. now apply scan_no_match.
  - intros dir name pre r post Hname Hrules Hpre Hr.
    rewrite (resolve_by_folder_rules s _ _ Hpresent),
      (containingFolder_child dir name Hname), Hrules.
    now apply scan_first_match.
  - intros dir name Hname Hall.
    rewrite (resolve_by_folder_rules s _ _ Hpresent),
      (containingFolder_child dir name Hname).
    now apply scan_no_match.
Qed.

Lemma unrecognized_token_ignored_witness :
  resolveViewMode (with_folderViewModes DEFAULT_SETTINGS [referenceRule])
    (Some {| frontmatter := Some {[ "view_mode" := JsString "banana" ]} |})
    "Reference/x.md"
  = getFolderViewMode (with_folderViewModes DEFAULT_SETTINGS [referenceRule])
      "Reference/x.md"
  /\ resolveViewMode (with_folderViewModes DEFAULT_SETTINGS [referenceRule])
       (Some {| frontmatter := Some {[ "view_mode" := JsString "banana" ]} |})
       "Reference/x.md"
     = Some Read.
Proof.
  assert (Hv : ({[ "view_mode" := JsString "banana" ]} : gmap string JsValue)
               !! metaPropertyName
                    (with_folderViewModes DEFAULT_SETTINGS [referenceRule])
               = Some (JsString "banana")) by reflexivity.
  assert (Hnot : forall m,
             "banana"
             <> tokenOf (customYamlNames
                  (with_folderViewModes DEFAULT_SETTINGS [referenceRule])) m)
    by (intros []; discriminate).
  assert (Hname : ~ In slash (list_ascii_of_string "x.md"))
    by (vm_compute; intros [E|[E|[E|[E|[]]]]]; discriminate).
  split.
  - exact (proj1 (proj2 (unrecognized_token_ignored _ _ "banana"
                           "Reference/x.md" Hv Hnot))).
  - apply (proj1 (proj2 (proj2 (proj2 (proj2
             (unrecognized_token_ignored _ _ "banana" "Reference/x.md"
                Hv Hnot)))))
           "Reference" "x.md" [] referenceRule [] Hname).
    + reflexivity.
    + intros q [].
    + left. reflexivity.
Defined.

(** C8 as stated fails on the older class.  In [MyPlugin] there is no token
    table: the document "Reference/x.md", which the folder rule for
    "Reference" maps to "read", resolves to "banana" when its frontmatter
    has the string "banana" under the property, and to "read" when the
    property is absent.  The value that is no mode blocks the folder
    rule. *)
Lemma legacy_unrecognized_value_blocks_folder_rule :
  Legacy.resolveViewMode "view_mode" [legacyReferenceRule]
    (Some (frontmatterOf "view_mode" (JsString "banana"))) "Reference/x.md"
  = JsString "banana"
  /\ Legacy.resolveViewMode "view_mode" [legacyReferenceRule]
       (Some {| frontmatter := Some ∅ |}) "Reference/x.md"
     = JsString "read"
  /\ Legacy.getFolderViewMode [legacyReferenceRule] "Reference/x.md"
     = Some "read"
  /\ Legacy.resolveViewMode "view_mode" [legacyReferenceRule]
       (Some (frontmatterOf "view_mode" (JsString "banana"))) "Reference/x.md"
     <> Legacy.resolveViewMode "view_mode" [legacyReferenceRule]
          (Some {| frontmatter := Some ∅ |}) "Reference/x.md".
Proof.
  split; [reflexivity|]. split; [reflexivity|]. split; [reflexivity|].
  vm_compute. discriminate.
Qed.




(** ** What each operation leaves alone *)

Lemma addNotices_nil (w : World) : addNotices w [] = w.
Proof. destruct w. unfold addNotices. simpl. now rewrite app_nil_r. Qed.

Lemma addNotices_app (w : World) (ns ms : list Notice) :
  addNotices (addNotices w ns) ms = addNotices w (ns ++ ms).
Proof. unfold addNotices. simpl. now rewrite app_assoc. Qed.

Lemma runSetter_world (f : Setter) (w : World) (view : MarkdownView)
    (st : ViewState) (res : ViewStateResult) :
  exists ns, fst (runSetter f w view st res) = addNotices w ns.
Proof.
  revert w st. induction f as [|g IH]; intros w st; simpl.
  - exists []. now rewrite addNotices_nil.
  - destruct (guardApplies w view && leavesPreview st).
    + destruct (IH (notify w (NoticeLocked (basename <$> file view)))
                   (with_mode st Preview)) as [ns Hns].
      exists (NoticeLocked (basename <$> file view) :: ns). rewrite Hns.
      unfold addNotices, notify. simpl. now rewrite <- app_assoc.
    + apply IH.
Qed.

Lemma callSetState_world (w : World) (view : MarkdownView) (st : ViewState)
    (res : ViewStateResult) :
  exists ns, fst (callSetState w view st res) = addNotices w ns.
Proof. apply runSetter_world. Qed.

(** Replace every result of [callSetState] by the world it started from
    plus some notices. *)
Ltac name_setState_results :=
  repeat match goal with
    | |- context [callSetState ?w ?v ?st ?res] =>
        let ns := fresh "ns" in
        let H := fresh "Hns" in
        let w1 := fresh "w" in
        let v1 := fresh "view" in
        destruct (callSetState_world w v st res) as [ns H];
        destruct (callSetState w v st res) as [w1 v1];
        cbn [fst] in H; subst w1
    end.

Lemma temp_updateEditButtonsVisibility (w : World) :
  temporarilyUnlockedFiles (updateEditButtonsVisibility w)
  = temporarilyUnlockedFiles w.
Proof. unfold updateEditButtonsVisibility. now split_cases. Qed.

Lemma locked_updateEditButtonsVisibility (w : World) :
  lockedFiles (updateEditButtonsVisibility w) = lockedFiles w.
Proof. unfold updateEditButtonsVisibility. now split_cases. Qed.

Lemma temp_forcePreview (w : World) (view : MarkdownView) (f : TFile) :
  temporarilyUnlockedFiles (fst (forcePreview w view f))
  = temporarilyUnlockedFiles w.
Proof.
  unfold forcePreview. destruct (notPreview (getState view)); [|reflexivity].
  now name_setState_results.
Qed.

Lemma temp_setViewMode (w : World) (view : MarkdownView) (vm : ViewMode) :
  temporarilyUnlockedFiles (fst (setViewMode w view vm))
  = temporarilyUnlockedFiles w.
Proof.
  unfold setViewMode, notifyIf.
  destruct vm, (showModeChangeNotification (settings w));
    cbv zeta; cbn iota; now name_setState_results.
Qed.

Lemma temp_checkAndEnforceLockedFiles (w : World) :
  temporarilyUnlockedFiles (checkAndEnforceLockedFiles w)
  = temporarilyUnlockedFiles w.
Proof.
  unfold checkAndEnforceLockedFiles.
  destruct (activeView w) as [view|]; [|reflexivity].
  destruct (file view) as [f|]; [|reflexivity].
  destruct (has (temporarilyUnlockedFiles w) (path f)); [reflexivity|].
  cbv zeta.
  assert (H1 : temporarilyUnlockedFiles
                 (fst (if has (lockedFiles w) (path f)
                       then forcePreview w view f else (w, view)))
               = temporarilyUnlockedFiles w).
  { destruct (has (lockedFiles w) (path f));
      [apply temp_forcePreview | reflexivity]. }
  destruct (if has (lockedFiles w) (path f)
            then forcePreview w view f else (w, view)) as [w1 view1].
  cbn [fst] in H1.
  match goal with
  | |- context [if ?c then _ else _] => destruct c
  end.
  - pose proof (temp_forcePreview (addLocked w1 (path f)) view1 f) as H2.
    destruct (forcePreview (addLocked w1 (path f)) view1 f) as [w2 view2].
    cbn [fst] in H2. rewrite temp_updateEditButtonsVisibility.
    cbn [temporarilyUnlockedFiles set_activeView]. rewrite H2. exact H1.
  - rewrite temp_updateEditButtonsVisibility. exact H1.
Qed.

Lemma temp_applyOnOpen (w : World) (f : TFile) :
  temporarilyUnlockedFiles (applyOnOpen w f) = temporarilyUnlockedFiles w.
Proof.
  unfold applyOnOpen.
  destruct (resolveViewMode _ _ _) as [vm|]; [|reflexivity].
  destruct (activeView w) as [view|]; [|reflexivity].
  destruct (bool_decide (file view = Some f)); [|reflexivity].
  pose proof (temp_setViewMode w view vm) as H.
  destruct (setViewMode w view vm) as [w1 view1]. cbn [fst] in H.
  now rewrite temp_updateEditButtonsVisibility.
Qed.

Lemma temp_enforceActiveLock (w : World) :
  temporarilyUnlockedFiles (enforceActiveLock w)
  = temporarilyUnlockedFiles w.
Proof.
  unfold enforceActiveLock.
  destruct (activeView w) as [view|]; [|reflexivity].
  destruct (file view) as [f|]; [|reflexivity].
  cbv zeta.
  destruct (has (lockedFiles w) (path f)
            && negb (has (temporarilyUnlockedFiles w) (path f)));
    [|reflexivity].
  destruct (notPreview (getState view)); [|reflexivity].
  now name_setState_results.
Qed.

Lemma temp_runCallback (cb : Callback) (w : World) :
  temporarilyUnlockedFiles (runCallback cb w) = temporarilyUnlockedFiles w.
Proof.
  destruct cb; simpl;
    auto using temp_applyOnOpen, temp_checkAndEnforceLockedFiles,
      temp_enforceActiveLock.
Qed.

Lemma temp_runCall (w : World) (c : Call) :
  c <> CallHandleLeafChange ->
  temporarilyUnlockedFiles (runCall w c) = temporarilyUnlockedFiles w.
Proof.
  destruct c; simpl; intros Hc;
    auto using temp_checkAndEnforceLockedFiles,
      temp_updateEditButtonsVisibility, temp_runCallback.
  congruence.
Qed.

(** Every event other than a change of the active leaf leaves the set of
    temporary unlocks as it is. *)
Lemma temp_dispatch (e : Event) (w : World) :
  e <> ActiveLeafChange ->
  temporarilyUnlockedFiles (dispatch e w) = temporarilyUnlockedFiles w.
Proof.
  intros He. unfold dispatch.
  assert (Hcalls : Forall (fun c => c <> CallHandleLeafChange)
                     (handlerCalls e w)).
  { destruct e as [[f|]| | | | |f|i]; simpl;
      repeat match goal with
        | |- context [if ?c then _ else _] => destruct c
        | |- context [match ?c with _ => _ end] => destruct c
        end;
      repeat constructor; congruence. }
  revert Hcalls. generalize (handlerCalls e w) as cs. intros cs.
  revert w. induction cs as [|c cs IH]; intros w Hcs; [reflexivity|].
  inversion Hcs; subst. simpl. rewrite IH by assumption.
  now apply temp_runCall.
Qed.

Lemma temp_run (es : list Event) (w : World) :
  ~ In ActiveLeafChange es ->
  temporarilyUnlockedFiles (run es w) = temporarilyUnlockedFiles w.
Proof.
  revert w. induction es as [|e es IH]; intros w Hes; [reflexivity|].
  simpl. rewrite IH by (intros H; apply Hes; now right).
  apply temp_dispatch. intros ->. apply Hes. now left.
Qed.

(** ** LockRegistry and SessionUnlock *)

Lemma has_true (s : gset string) (x : string) : has s x = true <-> x ∈ s.
Proof. unfold has. apply bool_decide_eq_true. Qed.

Lemma has_false (s : gset string) (x : string) : has s x = false <-> x ∉ s.
Proof. unfold has. apply bool_decide_eq_false. Qed.

Lemma size_zero_empty (s : gset string) : size s = 0%nat <-> s = ∅.
Proof. rewrite size_empty_iff. now unfold_leibniz. Qed.

Lemma updateEditButtonsVisibility_frame (w : World) :
  withoutButtons (updateEditButtonsVisibility w) = withoutButtons w.
Proof. unfold updateEditButtonsVisibility. now split_cases. Qed.

(** Whether or not the test [size > 0] passes, the set ends up empty. *)
Lemma handleLeafChange_clear (w : World) :
  handleLeafChange w
  = updateEditButtonsVisibility (set_temporarilyUnlockedFiles w ∅).
Proof.
  unfold handleLeafChange.
  destruct (Nat.ltb_spec 0 (size (temporarilyUnlockedFiles w)))
    as [Hpos|Hzero]; [reflexivity|].
  assert (Hempty : temporarilyUnlockedFiles w = ∅)
    by (apply size_zero_empty; lia).
  destruct w. unfold set_temporarilyUnlockedFiles. simpl in *.
  now rewrite Hempty.
Qed.

Lemma temp_after_leaf_change (w : World) :
  temporarilyUnlockedFiles (dispatch ActiveLeafChange w) = ∅.
Proof.
  unfold dispatch. simpl. rewrite handleLeafChange_clear.
  now rewrite temp_updateEditButtonsVisibility.
Qed.

(** C5. The clearing step run on every change of the active leaf,
    [handleLeafChange], leaves [temporarilyUnlockedFiles] empty whatever it
    held and whichever document is active, and changes nothing else of the
    registry: [lockedFiles] is the same, and so are the settings, the
    views, the caches, the notices and the timers (only the visibility of
    the edit buttons is refreshed).  The handler of active-leaf-change as
    a whole therefore also ends with the set empty. *)
Theorem leaf_change_clears_temporary_unlocks (w : World) :
  temporarilyUnlockedFiles (handleLeafChange w) = ∅
  /\ lockedFiles (handleLeafChange w) = lockedFiles w
  /\ withoutButtons (handleLeafChange w)
     = withoutButtons (set_temporarilyUnlockedFiles w ∅)
  /\ In CallHandleLeafChange (handlerCalls ActiveLeafChange w)
  /\ temporarilyUnlockedFiles (dispatch ActiveLeafChange w) = ∅.
Proof.
  repeat split.
  - rewrite handleLeafChange_clear.
    now rewrite temp_updateEditButtonsVisibility.
  - rewrite handleLeafChange_clear.
    now rewrite locked_updateEditButtonsVisibility.
  - rewrite handleLeafChange_clear. apply updateEditButtonsVisibility_frame.
  - simpl. tauto.
  - apply temp_after_leaf_change.
Qed.

Lemma unlocked_not_empty (id : string) (s : gset string) : {[id]} ∪ s <> ∅.
Proof.
  intros H. apply (not_elem_of_empty (C := gset string) id).
  rewrite <- H. apply elem_of_union_l. now apply elem_of_singleton.
Qed.

Lemma registry_unlockFile (w : World) (id : string) :
  lockedFiles (unlockFile w id) = lockedFiles w ∖ {[id]}
  /\ temporarilyUnlockedFiles (unlockFile w id)
     = {[id]} ∪ temporarilyUnlockedFiles w.
Proof.
  unfold unlockFile. cbv zeta.
  rewrite locked_updateEditButtonsVisibility,
    temp_updateEditButtonsVisibility.
  cbn [activeView set_temporarilyUnlockedFiles set_lockedFiles
       livePreviewConfig].
  destruct (activeView w) as [view|]; [|split; reflexivity].
  destruct (file view) as [f|]; [|split; reflexivity].
  destruct (String.eqb (path f) id); [|split; reflexivity].
  name_setState_results. split; reflexivity.
Qed.

Lemma interval_skips_when_unlocked (w : World) :
  temporarilyUnlockedFiles w <> ∅ ->
  handlerCalls IntervalTick w = [CallUpdateEditButtonsVisibility].
Proof.
  intros Hne. simpl.
  destruct (Nat.eqb_spec (size (temporarilyUnlockedFiles w)) 0) as [Hz|Hnz];
    [|reflexivity].
  now apply size_zero_empty in Hz.
Qed.

(** C10. [unlockFile(id)] asks nothing of [id]: from every state it
    removes [id] from [lockedFiles] and adds it to
    [temporarilyUnlockedFiles]; that set is then non-empty, so the interval
    callback does not call [checkAndEnforceLockedFiles] -- now, and after
    any events that do not include a change of the active leaf -- while a
    change of the active leaf empties the set again; and a second
    [unlockFile(id)] leaves both sets as the first left them. *)
Theorem unlockFile_unconditional (w : World) (id : string) :
  lockedFiles (unlockFile w id) = lockedFiles w ∖ {[id]}
  /\ temporarilyUnlockedFiles (unlockFile w id)
     = {[id]} ∪ temporarilyUnlockedFiles w
  /\ temporarilyUnlockedFiles (unlockFile w id) <> ∅
  /\ (forall es,
        ~ In ActiveLeafChange es ->
        ~ In CallCheckAndEnforceLockedFiles
            (handlerCalls IntervalTick (run es (unlockFile w id)))
        /\ dispatch IntervalTick (run es (unlockFile w id))
           = updateEditButtonsVisibility (run es (unlockFile w id)))
  /\ (forall es,
        temporarilyUnlockedFiles
          (run (es ++ [ActiveLeafChange]) (unlockFile w id)) = ∅
        /\ In CallCheckAndEnforceLockedFiles
             (handlerCalls IntervalTick
                (run (es ++ [ActiveLeafChange]) (unlockFile w id))))
  /\ lockedFiles (unlockFile (unlockFile w id) id)
     = lockedFiles (unlockFile w id)
  /\ temporarilyUnlockedFiles (unlockFile (unlockFile w id) id)
     = temporarilyUnlockedFiles (unlockFile w id).
Proof.
  destruct (registry_unlockFile w id) as [Hl Ht].
  destruct (registry_unlockFile (unlockFile w id) id) as [Hl2 Ht2].
  assert (Hne : temporarilyUnlockedFiles (unlockFile w id) <> ∅)
    by (rewrite Ht; apply unlocked_not_empty).
  assert (Hpause : forall es,
            ~ In ActiveLeafChange es ->
            handlerCalls IntervalTick (run es (unlockFile w id))
            = [CallUpdateEditButtonsVisibility]).
  { intros es Hes. apply interval_skips_when_unlocked.
    now rewrite temp_run. }
  assert (Hclear : forall es,
            temporarilyUnlockedFiles
              (run (es ++ [ActiveLeafChange]) (unlockFile w id)) = ∅).
  { intros es. unfold run. rewrite fold_left_app. simpl.
    apply temp_after_leaf_change. }
  split; [exact Hl|]. split; [exact Ht|]. split; [exact Hne|].
  split; [|split; [|split]].
  - intros es Hes. split.
    + rewrite (Hpause es Hes). simpl. intros [Hc|[]]. discriminate.
    + unfold dispatch. now rewrite (Hpause es Hes).
  - intros es. split; [apply Hclear|].
    simpl. rewrite Hclear, size_empty. simpl. tauto.
  - rewrite Hl2, Hl. apply set_eq. intros x.
    rewrite !elem_of_difference. tauto.
  - rewrite Ht2, Ht. apply set_eq. intros x.
    rewrite !elem_of_union. tauto.
Qed.

Lemma locked_setViewMode (w : World) (view : MarkdownView) (vm : ViewMode) :
  lockedFiles (fst (setViewMode w view vm))
  = match vm with
    | Lock => {[default "" (path <$> file view)]} ∪ lockedFiles w
    | _ => lockedFiles w
    end.
Proof.
  unfold setViewMode, notifyIf.
  assert (Hfile : file (patchViewStateMethod view) = file view)
    by (unfold patchViewStateMethod; now destruct (_originalSetState view)).
  rewrite Hfile.
  destruct vm, (showModeChangeNotification (settings w));
    cbv zeta; cbn iota; now name_setState_results.
Qed.

(** C4 as stated fails: [isFileLocked] reads [lockedFiles] only.  After
    [unlockFile] of D, the file-open callback for D (its policy is still
    lock) adds D to [lockedFiles] again while it is still in
    [temporarilyUnlockedFiles]: the query answers true where
    [locked.has(id) && !temporarilyUnlocked.has(id)] is false. *)
Lemma isFileLocked_true_while_temporarily_unlocked :
  let w := run [FileOpen (Some fileD); TimerFires 0]
             (unlockFile worldD "D.md") in
  isFileLocked w "D.md" = true
  /\ has (lockedFiles w) "D.md"
     && negb (has (temporarilyUnlockedFiles w) "D.md") = false.
Proof. vm_compute. split; reflexivity. Qed.

(** C4 (as the code has it).  From every state, so after any sequence of
    earlier calls: [isFileLocked(id)] is [lockedFiles.has(id)]; it is true
    right after [id] is added to [lockedFiles] (directly, or by
    [setViewMode] with mode lock on a view of [id]) and false right after
    [unlockFile(id)]; and it equals
    [locked.has(id) && !temporarilyUnlocked.has(id)] exactly when [id] is
    not in both sets, which is so right after [unlockFile(id)]. *)
Theorem isFileLocked_reads_locked_set (w : World) (id : string) :
  isFileLocked w id = has (lockedFiles w) id
  /\ isFileLocked (addLocked w id) id = true
  /\ (forall view f,
        file view = Some f -> path f = id ->
        isFileLocked (fst (setViewMode w view Lock)) id = true)
  /\ isFileLocked (unlockFile w id) id = false
  /\ has (lockedFiles (unlockFile w id)) id
     && negb (has (temporarilyUnlockedFiles (unlockFile w id)) id) = false
  /\ (isFileLocked w id
      = has (lockedFiles w) id && negb (has (temporarilyUnlockedFiles w) id)
      <-> ~ (id ∈ lockedFiles w /\ id ∈ temporarilyUnlockedFiles w)).
Proof.
  destruct (registry_unlockFile w id) as [Hl Ht].
  assert (Hgone : has (lockedFiles (unlockFile w id)) id = false).
  { apply has_false. rewrite Hl, elem_of_difference, elem_of_singleton.
    tauto. }
  repeat split.
  - unfold isFileLocked, addLocked. cbn [lockedFiles set_lockedFiles].
    apply has_true, elem_of_union_l. now apply elem_of_singleton.
  - intros view f Hf Hp. unfold isFileLocked.
    rewrite locked_setViewMode, Hf. cbn [fmap option_fmap option_map default].
    rewrite Hp. apply has_true, elem_of_union_l. now apply elem_of_singleton.
  - exact Hgone.
  - now rewrite Hgone.
  - unfold isFileLocked. intros Heq [Hin1 Hin2].
    apply has_true in Hin1. apply has_true in Hin2.
    rewrite Hin1, Hin2 in Heq. discriminate.
  - unfold isFileLocked. intros Hnot.
    destruct (has (lockedFiles w) id) eqn:E1; [|reflexivity].
    destruct (has (temporarilyUnlockedFiles w) id) eqn:E2; [|reflexivity].
    apply has_true in E1. apply has_true in E2. tauto.
Qed.

Lemma isFileLocked_reads_locked_set_witness :
  file (freshView fileD previewState) = Some fileD
  /\ isFileLocked
       (fst (setViewMode worldD (freshView fileD previewState) Lock))
       "D.md" = true.
Proof.
  split; [reflexivity|].
  apply (proj1 (proj2 (proj2 (isFileLocked_reads_locked_set worldD "D.md")))
           (freshView fileD previewState) fileD); reflexivity.
Defined.

(** ** StatePatcher *)

Lemma patch_idempotent (view : MarkdownView) :
  patchViewStateMethod (patchViewStateMethod view)
  = patchViewStateMethod view.
Proof.
  unfold patchViewStateMethod.
  destruct (_originalSetState view) eqn:E; cbn [_originalSetState];
    [now rewrite E | reflexivity].
Qed.

Lemma patch_patched (view : MarkdownView) :
  untouched view \/ patched view -> patched (patchViewStateMethod view).
Proof.
  unfold patchViewStateMethod, untouched, patched.
  intros [[Hs Ho]|[Hs Ho]]; rewrite Ho; cbn [setState _originalSetState];
    rewrite ?Hs; auto.
Qed.

Lemma patch_fields (view : MarkdownView) :
  file (patchViewStateMethod view) = file view
  /\ liveState (patchViewStateMethod view) = liveState view
  /\ hostCalls (patchViewStateMethod view) = hostCalls view.
Proof.
  unfold patchViewStateMethod. now destruct (_originalSetState view).
Qed.

Lemma guardApplies_true (w : World) (view : MarkdownView) (f : TFile) :
  file view = Some f -> path f <> "" ->
  path f ∈ lockedFiles w -> path f ∉ temporarilyUnlockedFiles w ->
  guardApplies w view = true.
Proof.
  intros Hf Hp Hl Ht. unfold guardApplies, truthy. rewrite Hf.
  apply has_true in Hl. apply has_false in Ht. rewrite Hl, Ht.
  apply String.eqb_neq in Hp. now rewrite Hp.
Qed.

Lemma guardApplies_enforced (w : World) (view : MarkdownView) :
  guardApplies w view = true -> enforcedLocked w view.
Proof.
  unfold guardApplies, enforcedLocked.
  destruct (file view) as [f|]; [|discriminate].
  rewrite !andb_true_iff, negb_true_iff, has_true, has_false.
  intros [[_ Hl] Ht]. now exists f.
Qed.

(** One wrapper around the host's setter: the request is rewritten when
    the test of the wrapper passes, and forwarded once either way. *)
Lemma callSetState_patched (w : World) (view : MarkdownView)
    (st : ViewState) (res : ViewStateResult) :
  setState view = lockGuard hostSetState ->
  callSetState w view st res
  = if guardApplies w view && leavesPreview st
    then (notify w (NoticeLocked (basename <$> file view)),
          hostApply view (with_mode st Preview) res)
    else (w, hostApply view st res).
Proof.
  intros Hs. unfold callSetState. rewrite Hs. simpl.
  now destruct (guardApplies w view && leavesPreview st).
Qed.

(** C7. [patchViewStateMethod] wraps a view at most once: calling it again
    on a view changes nothing, and a view of the host ends with exactly
    one wrapper around the host's setter.  Through the wrapper, a request
    whose [mode] is present and not preview, made while the document of
    the view is in [lockedFiles] and not in [temporarilyUnlockedFiles], is
    forwarded once to the original setter with [mode] replaced by preview
    and every other field and the second argument as given, after a
    locked notice; a request on a document that is not enforced-locked,
    or without [mode], or with [mode] preview, is forwarded once exactly
    as given and raises no notice. *)
Theorem state_patcher_contract (w : World) (view0 : MarkdownView) :
  untouched view0 ->
  (forall v, patchViewStateMethod (patchViewStateMethod v)
             = patchViewStateMethod v)
  /\ setState (patchViewStateMethod view0) = lockGuard hostSetState
  /\ wrapDepth (setState (patchViewStateMethod (patchViewStateMethod view0)))
     = 1%nat
  /\ (forall st res f m,
        file view0 = Some f -> path f <> "" ->
        path f ∈ lockedFiles w -> path f ∉ temporarilyUnlockedFiles w ->
        mode st = Some m -> m <> Preview ->
        callSetState w (patchViewStateMethod view0) st res
        = (notify w (NoticeLocked (Some (basename f))),
           hostApply (patchViewStateMethod view0)
             {| mode := Some Preview; source := source st;
                otherKeys := otherKeys st |} res))
  /\ (forall st res,
        ~ enforcedLocked w view0 \/ mode st = None \/ mode st = Some Preview ->
        callSetState w (patchViewStateMethod view0) st res
        = (w, hostApply (patchViewStateMethod view0) st res)).
Proof.
  intros Hu.
  destruct (patch_patched view0 (or_introl Hu)) as [Hs Ho].
  destruct (patch_fields view0) as (Hfile & _ & _).
  repeat split.
  - apply patch_idempotent.
  - exact Hs.
  - now rewrite patch_idempotent, Hs.
  - intros st res f m Hf Hp Hl Ht Hm Hne.
    rewrite (callSetState_patched _ _ _ _ Hs).
    rewrite (guardApplies_true w _ f) by (rewrite ?Hfile; assumption).
    unfold leavesPreview. rewrite Hm, Hfile, Hf.
    destruct m; [congruence | reflexivity].
  - intros st res Hcase.
    rewrite (callSetState_patched _ _ _ _ Hs).
    destruct (guardApplies w (patchViewStateMethod view0)) eqn:Hg;
      [|reflexivity].
    apply guardApplies_enforced in Hg.
    destruct Hcase as [Hnot|[Hm|Hm]].
    + destruct Hnot. destruct Hg as (f & Hf & Hl & Ht).
      exists f. now rewrite <- Hfile.
    + unfold leavesPreview. now rewrite Hm.
    + unfold leavesPreview. now rewrite Hm.
Qed.

Lemma state_patcher_contract_witness :
  untouched (freshView fileD previewState)
  /\ callSetState worldLockedD
       (patchViewStateMethod (freshView fileD previewState))
       sourceState noHistory
     = (notify worldLockedD (NoticeLocked (Some "D")),
        hostApply (patchViewStateMethod (freshView fileD previewState))
          previewState noHistory).
Proof.
  assert (Hu : untouched (freshView fileD previewState))
    by (split; reflexivity).
  split; [exact Hu|].
  apply (proj1 (proj2 (proj2 (proj2
           (state_patcher_contract worldLockedD _ Hu))))
           sourceState noHistory fileD Source).
  - reflexivity.
  - discriminate.
  - vm_compute. reflexivity.
  - vm_compute. discriminate.
  - reflexivity.
  - discriminate.
Defined.

(** ** EnforcementEngine *)

Lemma guardApplies_notifyIf (b : bool) (w : World) (n : Notice)
    (view : MarkdownView) :
  guardApplies (notifyIf b w n) view = guardApplies w view.
Proof. now destruct b. Qed.

Lemma guardApplies_patch (w : World) (view : MarkdownView) :
  guardApplies w (patchViewStateMethod view) = guardApplies w view.
Proof.
  unfold guardApplies. now rewrite (proj1 (patch_fields view)).
Qed.

(** What [setViewMode] hands to the host, for a view of the host. *)
Lemma setViewMode_host_call (w : World) (view : MarkdownView)
    (vm : ViewMode) :
  untouched view \/ patched view ->
  let requested := modeTable (livePreviewConfig w) (getState view) vm in
  let written :=
    if guardApplies w view && leavesPreview requested
    then with_mode requested Preview else requested in
  snd (setViewMode w view vm)
  = hostApply (patchViewStateMethod view) written noHistory.
Proof.
  intros Hv. destruct (patch_patched view Hv) as [Hs _].
  unfold setViewMode, modeTable.
  destruct vm; cbv zeta; cbn iota;
    rewrite (callSetState_patched _ _ _ _ Hs);
    rewrite ?guardApplies_notifyIf, ?guardApplies_patch;
    cbn [leavesPreview with_mode with_source mode source otherKeys
         livePreviewConfig addLocked set_lockedFiles];
    rewrite ?andb_false_r; try reflexivity;
    destruct (showModeChangeNotification (settings w));
    cbn [notifyIf livePreviewConfig notify];
    rewrite ?andb_true_r;
    now destruct (guardApplies w view).
Qed.

(** C6 (as the code has it).  For a view of the host, [setViewMode] makes
    exactly one call of the host's setter, with [history] false, and the
    state it passes is the row of the mode table -- except that the call
    goes through the wrapper that [setViewMode] itself installs, so that
    for Edit, EditSource and EditPreview on a document that is in
    [lockedFiles] and not in [temporarilyUnlockedFiles] the display mode
    written is Preview, not Source (the source style is still the one of
    the table).  Read and Lock always write Preview; Lock adds the path of
    the document to [lockedFiles], the other modes leave the set alone. *)
Theorem setViewMode_table (w : World) (view : MarkdownView) (vm : ViewMode) :
  untouched view \/ patched view ->
  exists written,
    hostCalls (snd (setViewMode w view vm))
    = (hostCalls view ++ [(written, noHistory)])%list
    /\ history noHistory = false
    /\ liveState (snd (setViewMode w view vm)) = written
    /\ source written
       = source (modeTable (livePreviewConfig w) (getState view) vm)
    /\ otherKeys written = otherKeys (getState view)
    /\ (vm = Read \/ vm = Lock ->
        written = modeTable (livePreviewConfig w) (getState view) vm
        /\ mode written = Some Preview)
    /\ (~ enforcedLocked w view ->
        written = modeTable (livePreviewConfig w) (getState view) vm)
    /\ (forall f,
          file view = Some f -> path f <> "" ->
          path f ∈ lockedFiles w -> path f ∉ temporarilyUnlockedFiles w ->
          mode written = Some Preview)
    /\ lockedFiles (fst (setViewMode w view vm))
       = match vm with
         | Lock => {[default "" (path <$> file view)]} ∪ lockedFiles w
         | _ => lockedFiles w
         end.
Proof.
  intros Hv. pose proof (setViewMode_host_call w view vm Hv) as Hcall.
  cbv zeta in Hcall.
  set (requested := modeTable (livePreviewConfig w) (getState view) vm)
    in *.
  set (written := if guardApplies w view && leavesPreview requested
                  then with_mode requested Preview else requested) in *.
  exists written. rewrite Hcall.
  destruct (patch_fields view) as (_ & _ & Hcalls).
  assert (Hkeep : source written = source requested
                  /\ otherKeys written = otherKeys requested).
  { unfold written.
    now destruct (guardApplies w view && leavesPreview requested). }
  split; [|split; [|split; [|split; [|split; [|split; [|split;
    [|split]]]]]]].
  - cbn [hostCalls hostApply]. now rewrite Hcalls.
  - reflexivity.
  - reflexivity.
  - apply Hkeep.
  - rewrite (proj2 Hkeep). unfold requested. now destruct vm.
  - intros [->| ->]; unfold written, requested; cbn [modeTable];
      now rewrite andb_false_r.
  - intros Hnot. unfold written.
    destruct (guardApplies w view) eqn:Hg; [|reflexivity].
    now apply guardApplies_enforced in Hg.
  - intros f Hf Hp Hl Ht. unfold written.
    rewrite (guardApplies_true w view f Hf Hp Hl Ht).
    unfold requested. now destruct vm.
  - apply locked_setViewMode.
Qed.

Lemma setViewMode_table_witness :
  (untouched (freshView fileD previewState)
   \/ patched (freshView fileD previewState))
  /\ exists written,
       hostCalls (snd (setViewMode worldD (freshView fileD previewState) Edit))
       = [(written, noHistory)]
       /\ written = {| mode := Some Source; source := Some false;
                       otherKeys := [] |}.
Proof.
  assert (Hv : untouched (freshView fileD previewState)
               \/ patched (freshView fileD previewState))
    by (left; split; reflexivity).
  split; [exact Hv|].
  destruct (setViewMode_table worldD (freshView fileD previewState) Edit Hv)
    as (written & Hcalls & _ & _ & _ & _ & _ & Hfree & _).
  exists written. split; [exact Hcalls|].
  apply Hfree. intros (f & Hf & Hl & _). vm_compute in Hl. discriminate.
Defined.

(** C6 as stated fails on a locked document.  D was opened while its
    frontmatter said lock, so it is in [lockedFiles]; its frontmatter now
    resolves to Edit.  [setViewMode] with mode Edit on its view hands the
    host a state whose display mode is Preview, where the table says
    Source. *)
Lemma setViewMode_edit_on_locked_writes_preview :
  resolveViewMode (settings worldRetagged)
    (getFileCache worldRetagged fileD) (path fileD) = Some Edit
  /\ exists view,
       activeView worldRetagged = Some view
       /\ file view = Some fileD
       /\ mode (modeTable (livePreviewConfig worldRetagged)
                  (getState view) Edit) = Some Source
       /\ last (hostCalls (snd (setViewMode worldRetagged view Edit)))
          = Some ({| mode := Some Preview; source := Some false;
                     otherKeys := [] |}, noHistory).
Proof.
  split; [vm_compute; reflexivity|].
  eexists. split; [vm_compute; reflexivity|].
  repeat split; vm_compute; reflexivity.
Qed.

(** The same along a run of the plugin: when D is opened again the
    file-open callback resolves Edit, and the state handed to the host has
    display mode Preview. *)
Lemma reopen_after_retag_keeps_preview :
  resolveViewMode (settings worldRetagged)
    (getFileCache worldRetagged fileD) (path fileD) = Some Edit
  /\ (last <$> (hostCalls <$>
        activeView (run [FileOpen (Some fileD); TimerFires 0]
                      worldRetagged)))
     = Some (Some ({| mode := Some Preview; source := Some false;
                      otherKeys := [] |}, noHistory)).
Proof. vm_compute. split; reflexivity. Qed.

(** C1 as stated fails for the three events: with A temporarily unlocked,
    the handlers of layout-change, active-leaf-change and resize still
    call [checkAndEnforceLockedFiles], which registers B as locked, puts
    it back in preview and raises the notice. *)
Lemma enforcement_runs_on_events_while_unlocked :
  has (temporarilyUnlockedFiles worldAB) "A.md" = true
  /\ In CallCheckAndEnforceLockedFiles (handlerCalls LayoutChange worldAB)
  /\ In CallCheckAndEnforceLockedFiles (handlerCalls ActiveLeafChange worldAB)
  /\ In CallCheckAndEnforceLockedFiles (handlerCalls Resize worldAB)
  /\ has (lockedFiles worldAB) "B.md" = false
  /\ has (lockedFiles (dispatch Resize worldAB)) "B.md" = true
  /\ (mode <$> (liveState <$> activeView worldAB)) = Some (Some Source)
  /\ (mode <$> (liveState <$> activeView (dispatch Resize worldAB)))
     = Some (Some Preview)
  /\ (mode <$> (liveState <$> activeView (dispatch LayoutChange worldAB)))
     = Some (Some Preview)
  /\ notices (dispatch Resize worldAB) = [NoticeLocked (Some "B")].
Proof. vm_compute. repeat split; auto. Qed.

Lemma checkAndEnforce_skips_unlocked_document (w : World)
    (view : MarkdownView) (f : TFile) :
  activeView w = Some view -> file view = Some f ->
  path f ∈ temporarilyUnlockedFiles w ->
  checkAndEnforceLockedFiles w = w.
Proof.
  intros Hv Hf Ht. unfold checkAndEnforceLockedFiles.
  rewrite Hv, Hf. apply has_true in Ht. now rewrite Ht.
Qed.

(** C1 (as the code has it).  While [temporarilyUnlockedFiles] is
    non-empty the interval callback does not call
    [checkAndEnforceLockedFiles] at all (it only refreshes the edit
    buttons), and it does call it when the set is empty.  The handlers of
    layout-change, active-leaf-change and resize call it on every event,
    whatever the set holds; the call returns at once, leaving everything
    as it was, when the active document itself is temporarily
    unlocked. *)
Theorem enforcement_skip_conditions (w : World) :
  (temporarilyUnlockedFiles w <> ∅ ->
   ~ In CallCheckAndEnforceLockedFiles (handlerCalls IntervalTick w)
   /\ dispatch IntervalTick w = updateEditButtonsVisibility w)
  /\ (temporarilyUnlockedFiles w = ∅ ->
      In CallCheckAndEnforceLockedFiles (handlerCalls IntervalTick w))
  /\ (forall e,
        e = LayoutChange \/ e = ActiveLeafChange \/ e = Resize ->
        In CallCheckAndEnforceLockedFiles (handlerCalls e w))
  /\ (forall view f,
        activeView w = Some view -> file view = Some f ->
        path f ∈ temporarilyUnlockedFiles w ->
        checkAndEnforceLockedFiles w = w).
Proof.
  split; [|split; [|split]].
  - intros Hne. split.
    + rewrite (interval_skips_when_unlocked w Hne). simpl.
      intros [Hc|[]]. discriminate.
    + unfold dispatch. now rewrite (interval_skips_when_unlocked w Hne).
  - intros Hempty. simpl. rewrite Hempty, size_empty. simpl. tauto.
  - intros e [->|[->| ->]]; simpl; tauto.
  - apply checkAndEnforce_skips_unlocked_document.
Qed.

Lemma enforcement_skip_conditions_witness :
  temporarilyUnlockedFiles worldAB <> ∅
  /\ ~ In CallCheckAndEnforceLockedFiles (handlerCalls IntervalTick worldAB)
  /\ dispatch IntervalTick worldAB = updateEditButtonsVisibility worldAB.
Proof.
  assert (Hne : temporarilyUnlockedFiles worldAB <> ∅).
  { intros H. assert (Hin : "A.md" ∈ temporarilyUnlockedFiles worldAB)
      by (apply has_true; vm_compute; reflexivity).
    rewrite H in Hin. now apply not_elem_of_empty in Hin. }
  split; [exact Hne|].
  exact (proj1 (enforcement_skip_conditions worldAB) Hne).
Defined.

Lemma unlockFile_unconditional_witness :
  ~ In ActiveLeafChange [LayoutChange; Resize]
  /\ dispatch IntervalTick (run [LayoutChange; Resize]
                              (unlockFile worldD "D.md"))
     = updateEditButtonsVisibility
         (run [LayoutChange; Resize] (unlockFile worldD "D.md")).
Proof.
  assert (Hes : ~ In ActiveLeafChange [LayoutChange; Resize])
    by (intros [H|[H|[]]]; discriminate).
  split; [exact Hes|].
  destruct (unlockFile_unconditional worldD "D.md")
    as (_ & _ & _ & Hpause & _).
  exact (proj2 (Hpause _ Hes)).
Defined.

(** ** The older class *)

(** In [MyPlugin] there is no token table: any truthy frontmatter value is
    taken as the mode, so the folder rules are not consulted, whatever the
    value is. *)
Lemma legacy_frontmatter_value_is_final (name v : string)
    (rules : list Legacy.FolderViewMode) (fm : gmap string JsValue)
    (filePath : string) :
  fm !! name = Some (JsString v) -> v <> "" ->
  Legacy.resolveViewMode name rules (Some {| frontmatter := Some fm |})
    filePath = JsString v.
Proof.
  intros Hv Hne. unfold Legacy.resolveViewMode, getProperty.
  cbn [frontmatter]. rewrite Hv.
  change (default JsUndefined (Some (JsString v))) with (JsString v).
  cbn [Legacy.falsy]. apply String.eqb_neq in Hne. now rewrite Hne.
Qed.

(** * Further properties of the code *)

(** ** Paths and folder rules *)

Lemma split_at_last_slash (p : string) :
  In slash (list_ascii_of_string p) ->
  exists dir name,
    p = dir ++ String slash name /\ ~ In slash (list_ascii_of_string name).
Proof.
  induction p as [|a p IH]; simpl; [tauto|]. intros Hin.
  destruct (in_dec ascii_dec slash (list_ascii_of_string p)) as [Hp|Hp].
  - destruct (IH Hp) as (dir & name & -> & Hname).
    exists (String a dir), name. now rewrite append_cons.
  - destruct Hin as [->|Hin]; [|contradiction].
    exists "", p. split; [reflexivity | exact Hp].
Qed.

Lemma prefix_app_cancel (p a b : string) :
  String.prefix (p ++ a) (p ++ b) = String.prefix a b.
Proof.
  induction p as [|c p IH]; [reflexivity|].
  rewrite !append_cons. simpl.
  destruct (ascii_dec c c) as [_|Hc]; [exact IH | congruence].
Qed.

Lemma append_longer (p : string) (c : ascii) (rest : string) :
  p ++ String c rest <> p.
Proof.
  intros H. apply (f_equal String.length) in H.
  rewrite length_append in H. simpl in H. lia.
Qed.

Lemma covers_is_prefix (r : FolderViewMode) (folder : string) :
  ruleCovers r folder -> String.prefix (folderPath r) folder = true.
Proof.
  intros [->|[rest ->]]; apply prefix_app.
  - exists "". clear. induction (folderPath r) as [|a p IH];
      [reflexivity | now rewrite append_cons, <- IH].
  - now exists ("/" ++ rest).
Qed.

Lemma covers_whole_segment (r : FolderViewMode) (c : ascii)
    (rest : string) :
  c <> slash -> ~ ruleCovers r (folderPath r ++ String c rest).
Proof.
  intros Hc [H|[rest' H]].
  - now apply append_longer in H.
  - assert (Hp : String.prefix (folderPath r ++ "/")
                   (folderPath r ++ String c rest) = true).
    { apply prefix_app. exists rest'. now rewrite append_assoc. }
    rewrite prefix_app_cancel in Hp.
    change (String.prefix "/" (String c rest))
      with (if ascii_dec slash c then String.prefix "" rest else false)
      in Hp.
    destruct (ascii_dec slash c) as [E|_]; [congruence | discriminate].
Qed.

Lemma covers_descends (r1 r2 : FolderViewMode) (folder : string) :
  folderPath r2 = folderPath r1
  \/ (exists sub, folderPath r2 = folderPath r1 ++ "/" ++ sub) ->
  ruleCovers r2 folder -> ruleCovers r1 folder.
Proof.
  unfold ruleCovers. intros [E|[sub E]] [H|[rest H]]; rewrite E in H.
  - now left.
  - right. now exists rest.
  - right. now exists sub.
  - right. exists (sub ++ "/" ++ rest). now rewrite H, !append_assoc.
Qed.

Lemma scan_app (folder : string) (l1 l2 : list FolderViewMode) :
  scanFolderViewModes folder (l1 ++ l2)
  = match scanFolderViewModes folder l1 with
    | Some m => Some m
    | None => scanFolderViewModes folder l2
    end.
Proof.
  induction l1 as [|r l1 IH]; simpl; [reflexivity|].
  now destruct (folderMatches folder r).
Qed.

Lemma scan_hit (folder : string) (r : FolderViewMode)
    (rest : list FolderViewMode) :
  ruleCovers r folder ->
  scanFolderViewModes folder (r :: rest) = Some (viewMode r).
Proof. intros H. apply folderMatches_spec in H. simpl. now rewrite H. Qed.

(** X1. [getFolderViewMode] cuts a path at its last '/': what it takes as
    the folder of [dir/name] is [dir] whenever [name] has no '/', and
    every path either has no '/' and lies in the folder named by the empty
    string, or is its folder, a '/', and a name without '/'. *)
Theorem containingFolder_splits_path (p : string) :
  (forall dir name,
      ~ In slash (list_ascii_of_string name) ->
      containingFolder (dir ++ "/" ++ name) = dir)
  /\ ((~ In slash (list_ascii_of_string p) /\ containingFolder p = "")
      \/ (exists name,
            ~ In slash (list_ascii_of_string name)
            /\ p = containingFolder p ++ "/" ++ name)).
Proof.
  split; [intros dir name; apply containingFolder_child|].
  destruct (in_dec ascii_dec slash (list_ascii_of_string p)) as [Hp|Hp].
  - right. destruct (split_at_last_slash p Hp) as (dir & name & -> & Hname).
    exists name. split; [exact Hname|].
    change (String slash name) with ("/" ++ name).
    now rewrite containingFolder_child.
  - left. split; [exact Hp | now apply containingFolder_root].
Qed.

Lemma containingFolder_splits_path_witness :
  ~ In slash (list_ascii_of_string "x.md")
  /\ containingFolder ("Projects/Work" ++ "/" ++ "x.md") = "Projects/Work".
Proof.
  assert (H : ~ In slash (list_ascii_of_string "x.md"))
    by (simpl; intros [E|[E|[E|[E|[]]]]]; discriminate).
  split; [exact H|].
  exact (proj1 (containingFolder_splits_path "") "Projects/Work" "x.md" H).
Defined.

(** X2. A rule has no effect on a document whose folder does not begin
    with the rule's path (so a difference of case is a difference), nor on
    one whose folder continues the rule's path with a character other
    than '/': the folder rules give what they give without the rule. *)
Theorem rule_needs_whole_segment (s : ViewModeSettings)
    (pre post : list FolderViewMode) (r : FolderViewMode)
    (filePath : string) :
  folderViewModes s = (pre ++ r :: post)%list ->
  String.prefix (folderPath r) (containingFolder filePath) = false
  \/ (exists c rest,
        c <> slash
        /\ containingFolder filePath = folderPath r ++ String c rest) ->
  getFolderViewMode s filePath
  = getFolderViewMode (with_folderViewModes s (pre ++ post)) filePath.
Proof.
  intros Hrules Hcase. unfold getFolderViewMode. rewrite Hrules.
  cbn [folderViewModes with_folderViewModes]. apply scan_skip.
  destruct Hcase as [Hpre|(c & rest & Hc & ->)].
  - intros Hcov. apply covers_is_prefix in Hcov. congruence.
  - now apply covers_whole_segment.
Qed.

Lemma rule_needs_whole_segment_witness :
  getFolderViewMode
    (with_folderViewModes DEFAULT_SETTINGS
       [{| folderPath := "Note"; viewMode := Lock |}; referenceRule])
    "Notebook/x.md"
  = getFolderViewMode (with_folderViewModes DEFAULT_SETTINGS [referenceRule])
      "Notebook/x.md".
Proof.
  apply (rule_needs_whole_segment
           (with_folderViewModes DEFAULT_SETTINGS
              [{| folderPath := "Note"; viewMode := Lock |}; referenceRule])
           [] [referenceRule] {| folderPath := "Note"; viewMode := Lock |}
           "Notebook/x.md" eq_refl).
  right. exists "b"%char, "ook". split; [discriminate | reflexivity].
Defined.

(** X3. The first covering rule wins, so a rule listed after a rule for
    the same folder or for one of its ancestors never takes effect: for
    every document the folder rules give the same mode with the later rule
    as without it. *)
Theorem later_descendant_rule_is_dead (s : ViewModeSettings)
    (pre mid post : list FolderViewMode) (r1 r2 : FolderViewMode)
    (filePath : string) :
  folderViewModes s = (pre ++ r1 :: mid ++ r2 :: post)%list ->
  folderPath r2 = folderPath r1
  \/ (exists sub, folderPath r2 = folderPath r1 ++ "/" ++ sub) ->
  getFolderViewMode s filePath
  = getFolderViewMode (with_folderViewModes s (pre ++ r1 :: mid ++ post))
      filePath.
Proof.
  intros Hrules Hanc. unfold getFolderViewMode. rewrite Hrules.
  cbn [folderViewModes with_folderViewModes].
  set (folder := containingFolder filePath).
  rewrite !(scan_app folder pre).
  destruct (scanFolderViewModes folder pre); [reflexivity|].
  destruct (folderMatches folder r1) eqn:H1.
  - apply folderMatches_spec in H1. now rewrite !scan_hit.
  - change (r1 :: mid ++ r2 :: post)%list
      with ((r1 :: mid) ++ r2 :: post)%list.
    change (r1 :: mid ++ post)%list with ((r1 :: mid) ++ post)%list.
    apply scan_skip. intros H2.
    apply (covers_descends r1 r2 folder Hanc) in H2.
    apply folderMatches_spec in H2. congruence.
Qed.

Lemma later_descendant_rule_is_dead_witness :
  getFolderViewMode
    (with_folderViewModes DEFAULT_SETTINGS
       [referenceRule; {| folderPath := "Reference/Drafts"; viewMode := Edit |}])
    "Reference/Drafts/x.md" = Some Read.
Proof.
  rewrite (later_descendant_rule_is_dead
             (with_folderViewModes DEFAULT_SETTINGS
                [referenceRule;
                 {| folderPath := "Reference/Drafts"; viewMode := Edit |}])
             [] [] [] referenceRule
             {| folderPath := "Reference/Drafts"; viewMode := Edit |}
             "Reference/Drafts/x.md" eq_refl).
  - reflexivity.
  - right. exists "Drafts". reflexivity.
Defined.

(** X4. The validity test and the conversion of a frontmatter value agree:
    a value passes [isValidViewMode] exactly when it is a string that
    [convertYamlValueToViewMode] turns into a mode, and the mode it gives
    always carries that string as its token.  When the five tokens are
    pairwise different, converting the token of a mode gives the mode
    back. *)
Theorem token_conversion_agrees_with_validation (s : ViewModeSettings) :
  (forall v,
      isValidViewMode s v = true <->
      exists str m,
        v = JsString str /\ convertYamlValueToViewMode s str = Some m)
  /\ (forall str m,
        convertYamlValueToViewMode s str = Some m ->
        tokenOf (customYamlNames s) m = str)
  /\ (distinctTokens (customYamlNames s) ->
      forall m,
        convertYamlValueToViewMode s (tokenOf (customYamlNames s) m) = Some m).
Proof.
  assert (Hback : forall str m,
             convertYamlValueToViewMode s str = Some m ->
             tokenOf (customYamlNames s) m = str).
  { intros str m. unfold convertYamlValueToViewMode. cbv zeta.
    repeat match goal with
      | |- context [String.eqb ?a ?b] => destruct (String.eqb_spec a b)
      end; intros [= <-]; simpl; congruence. }
  split; [|split].
  - intros v. split.
    + destruct v as [| | | |str|]; try discriminate. intros Hvalid.
      apply isValidViewMode_token in Hvalid as [m Hm].
      destruct (convert_first s str m Hm) as (m0 & Hconv & _).
      now exists str, m0.
    + intros (str & m & -> & Hconv). apply isValidViewMode_token.
      exists m. symmetry. now apply Hback.
  - exact Hback.
  - intros Hd m.
    destruct (convert_first s _ m eq_refl) as (m0 & Hconv & Htok & _).
    rewrite Hconv. f_equal. now apply Hd.
Qed.

Lemma token_conversion_agrees_with_validation_witness :
  distinctTokens (customYamlNames DEFAULT_SETTINGS)
  /\ convertYamlValueToViewMode DEFAULT_SETTINGS "edit_preview"
     = Some EditPreview.
Proof.
  assert (Hd : distinctTokens (customYamlNames DEFAULT_SETTINGS))
    by (intros [] []; simpl; intros H; try reflexivity; discriminate).
  split; [exact Hd|].
  exact (proj2 (proj2 (token_conversion_agrees_with_validation
                         DEFAULT_SETTINGS)) Hd EditPreview).
Defined.

(** ** Writes through the wrapper *)

Lemma guardApplies_notify (w : World) (n : Notice) (view : MarkdownView) :
  guardApplies (notify w n) view = guardApplies w view.
Proof. reflexivity. Qed.

(** A request that does not leave preview passes every wrapper as it
    is. *)
Lemma runSetter_pass (f : Setter) (w : World) (view : MarkdownView)
    (st : ViewState) (res : ViewStateResult) :
  leavesPreview st = false ->
  runSetter f w view st res = (w, hostApply view st res).
Proof.
  intros Hst. induction f as [|g IH]; simpl; [reflexivity|].
  now rewrite Hst, andb_false_r.
Qed.

(** So does any request on a view whose document is not guarded. *)
Lemma runSetter_unguarded (f : Setter) (w : World) (view : MarkdownView)
    (st : ViewState) (res : ViewStateResult) :
  guardApplies w view = false ->
  runSetter f w view st res = (w, hostApply view st res).
Proof.
  intros Hg. induction f as [|g IH]; simpl; [reflexivity|].
  now rewrite Hg.
Qed.

(** Whatever the wrappers do, the host gets one call, with the state asked
    for or with its mode replaced by preview, and the second argument as
    given. *)
Lemma runSetter_result (f : Setter) (w : World) (view : MarkdownView)
    (st : ViewState) (res : ViewStateResult) :
  exists st',
    snd (runSetter f w view st res) = hostApply view st' res
    /\ (st' = st \/ st' = with_mode st Preview).
Proof.
  revert w st. induction f as [|g IH]; intros w st; simpl.
  - exists st. auto.
  - destruct (guardApplies w view && leavesPreview st).
    + rewrite runSetter_pass by reflexivity.
      exists (with_mode st Preview). auto.
    + apply IH.
Qed.

Lemma forcePreview_spec (w : World) (view : MarkdownView) (f : TFile) :
  forcePreview w view f
  = if notPreview (liveState view)
    then (notify w (NoticeLocked (Some (basename f))),
          hostApply view (with_mode (liveState view) Preview) noHistory)
    else (w, view).
Proof.
  unfold forcePreview, getState, callSetState.
  destruct (notPreview (liveState view)); [|reflexivity].
  now rewrite runSetter_pass by reflexivity.
Qed.

Lemma notPreview_forced (st : ViewState) :
  notPreview (with_mode st Preview) = false.
Proof. reflexivity. Qed.

Lemma notPreview_false (st : ViewState) :
  notPreview st = false <-> mode st = Some Preview.
Proof.
  unfold notPreview. rewrite negb_false_iff. apply bool_decide_eq_true.
Qed.

Lemma has_add_same (s : gset string) (x : string) : has ({[x]} ∪ s) x = true.
Proof. apply has_true, elem_of_union_l. now apply elem_of_singleton. Qed.

Lemma set_activeView_same (w : World) (view : MarkdownView) :
  activeView w = Some view -> set_activeView w (Some view) = w.
Proof. intros H. destruct w. simpl in *. now rewrite H. Qed.

Lemma updateEditButtonsVisibility_idem (w : World) :
  updateEditButtonsVisibility (updateEditButtonsVisibility w)
  = updateEditButtonsVisibility w.
Proof.
  unfold updateEditButtonsVisibility.
  destruct (activeView w) as [view|] eqn:Hv; [|now rewrite Hv].
  destruct (file view) as [f|] eqn:Hf; [|now rewrite Hv, Hf].
  cbn [activeView set_editButtons]. rewrite Hv, Hf.
  unfold set_editButtons, isFileLocked. cbn. f_equal.
  now rewrite map_map.
Qed.

Lemma updateEditButtonsVisibility_active (w : World) :
  activeView (updateEditButtonsVisibility w) = activeView w
  /\ settings (updateEditButtonsVisibility w) = settings w
  /\ fileCaches (updateEditButtonsVisibility w) = fileCaches w
  /\ notices (updateEditButtonsVisibility w) = notices w.
Proof. unfold updateEditButtonsVisibility. now split_cases. Qed.

(** [checkAndEnforceLockedFiles] in one piece, for an active document that
    is not temporarily unlocked: the document is to be locked when it is
    in [lockedFiles] or its policy is lock; then it is registered, and if
    it is not in preview it is put there with one notice. *)
Lemma checkAndEnforce_spec (w : World) (view : MarkdownView) (f : TFile) :
  activeView w = Some view -> file view = Some f ->
  path f ∉ temporarilyUnlockedFiles w ->
  checkAndEnforceLockedFiles w
  = updateEditButtonsVisibility
      (if has (lockedFiles w) (path f)
          || bool_decide (resolveViewMode (settings w) (getFileCache w f)
                            (path f) = Some Lock)
       then
         let w1 :=
           if has (lockedFiles w) (path f) then w
           else addLocked w (path f) in
         if notPreview (liveState view)
         then set_activeView
                (notify w1 (NoticeLocked (Some (basename f))))
                (Some (hostApply view (with_mode (liveState view) Preview)
                         noHistory))
         else set_activeView w1 (Some view)
       else set_activeView w (Some view)).
Proof.
  intros Hv Hf Ht. apply has_false in Ht.
  unfold checkAndEnforceLockedFiles. rewrite Hv, Hf, Ht. cbv zeta.
  destruct (has (lockedFiles w) (path f)) eqn:Hl.
  - rewrite forcePreview_spec. cbn [orb].
    destruct (notPreview (liveState view));
      cbn [lockedFiles notify temporarilyUnlockedFiles];
      now rewrite Hl, andb_false_r.
  - cbn [orb negb]. rewrite Hl, Ht. cbn [negb]. rewrite !andb_true_r.
    destruct (bool_decide (resolveViewMode (settings w) (getFileCache w f)
                             (path f) = Some Lock)); [|reflexivity].
    rewrite forcePreview_spec.
    now destruct (notPreview (liveState view)).
Qed.

(** ** Enforcement *)

Lemma checkAndEnforce_early (w : World) :
  activeView w = None
  \/ (exists view, activeView w = Some view /\ file view = None)
  \/ (exists view f,
        activeView w = Some view /\ file view = Some f
        /\ path f ∈ temporarilyUnlockedFiles w) ->
  checkAndEnforceLockedFiles w = w.
Proof.
  unfold checkAndEnforceLockedFiles.
  intros [Hv|[(view & Hv & Hf)|(view & f & Hv & Hf & Ht)]].
  - now rewrite Hv.
  - now rewrite Hv, Hf.
  - apply has_true in Ht. now rewrite Hv, Hf, Ht.
Qed.

(** A state in which the active document is already as enforcement wants
    it: only the edit buttons are refreshed. *)
Lemma checkAndEnforce_settled (w : World) (view : MarkdownView)
    (f : TFile) :
  activeView w = Some view -> file view = Some f ->
  path f ∉ temporarilyUnlockedFiles w ->
  (has (lockedFiles w) (path f) = true /\ notPreview (liveState view) = false)
  \/ (has (lockedFiles w) (path f) = false
      /\ resolveViewMode (settings w) (getFileCache w f) (path f)
         <> Some Lock) ->
  checkAndEnforceLockedFiles w = updateEditButtonsVisibility w.
Proof.
  intros Hv Hf Ht Hcase. rewrite (checkAndEnforce_spec w view f Hv Hf Ht).
  destruct Hcase as [[Hl Hp]|[Hl Hr]]; rewrite Hl.
  - cbn [orb]. cbv zeta. rewrite Hp. now rewrite set_activeView_same.
  - rewrite bool_decide_eq_false_2 by exact Hr. cbn [orb].
    now rewrite set_activeView_same.
Qed.

(** X5. [checkAndEnforceLockedFiles] is idempotent: run a second time
    right after the first, it changes nothing -- no second write to the
    host, no second notice, no change of the registry. *)
Theorem enforcement_is_idempotent (w : World) :
  checkAndEnforceLockedFiles (checkAndEnforceLockedFiles w)
  = checkAndEnforceLockedFiles w.
Proof.
  destruct (activeView w) as [view|] eqn:Hv;
    [|now rewrite !(checkAndEnforce_early w) by auto].
  destruct (file view) as [f|] eqn:Hf;
    [|now rewrite !(checkAndEnforce_early w) by eauto].
  destruct (decide (path f ∈ temporarilyUnlockedFiles w)) as [Ht|Ht];
    [now rewrite !(checkAndEnforce_early w) by eauto 8|].
  rewrite (checkAndEnforce_spec w view f Hv Hf Ht).
  assert (Hfix : forall X view',
             activeView X = Some view' -> file view' = Some f ->
             temporarilyUnlockedFiles X = temporarilyUnlockedFiles w ->
             settings X = settings w -> fileCaches X = fileCaches w ->
             (has (lockedFiles X) (path f) = true
              /\ notPreview (liveState view') = false)
             \/ (has (lockedFiles X) (path f) = false
                 /\ resolveViewMode (settings w) (getFileCache w f) (path f)
                    <> Some Lock) ->
             checkAndEnforceLockedFiles (updateEditButtonsVisibility X)
             = updateEditButtonsVisibility X).
  { intros X view' HvX HfX HtX HsX HcX Hcase.
    destruct (updateEditButtonsVisibility_active X) as (Ha & Hs & Hc & _).
    rewrite (checkAndEnforce_settled (updateEditButtonsVisibility X) view' f).
    - apply updateEditButtonsVisibility_idem.
    - now rewrite Ha.
    - exact HfX.
    - now rewrite temp_updateEditButtonsVisibility, HtX.
    - rewrite locked_updateEditButtonsVisibility.
      unfold getFileCache. now rewrite Hs, Hc, HsX, HcX. }
  destruct (has (lockedFiles w) (path f)) eqn:Hl; cbn [orb]; cbv zeta.
  - destruct (notPreview (liveState view)) eqn:Hp.
    + eapply Hfix; try reflexivity; [exact Hf|].
      left. cbn. now rewrite Hl.
    + eapply Hfix; try reflexivity; [exact Hf|]. left. now cbn.
  - destruct (bool_decide (resolveViewMode (settings w) (getFileCache w f)
                             (path f) = Some Lock)) eqn:Hr.
    + destruct (notPreview (liveState view)) eqn:Hp.
      * eapply Hfix; try reflexivity; [exact Hf|].
        left. cbn. now rewrite has_add_same.
      * eapply Hfix; try reflexivity; [exact Hf|].
        left. cbn. now rewrite has_add_same.
    + apply bool_decide_eq_false in Hr.
      eapply Hfix; try reflexivity; [exact Hf|]. right. now cbn.
Qed.

(** What enforcement does to an active document that must be locked. *)
Lemma checkAndEnforce_locks (w : World) (view : MarkdownView) (f : TFile) :
  activeView w = Some view -> file view = Some f ->
  path f ∉ temporarilyUnlockedFiles w ->
  path f ∈ lockedFiles w
  \/ resolveViewMode (settings w) (getFileCache w f) (path f) = Some Lock ->
  lockedFiles (checkAndEnforceLockedFiles w) = {[path f]} ∪ lockedFiles w
  /\ activeView (checkAndEnforceLockedFiles w)
     = Some (if notPreview (liveState view)
             then hostApply view (with_mode (liveState view) Preview)
                    noHistory
             else view)
  /\ notices (checkAndEnforceLockedFiles w)
     = (notices w
        ++ if notPreview (liveState view)
           then [NoticeLocked (Some (basename f))] else [])%list.
Proof.
  intros Hv Hf Ht Hcase. rewrite (checkAndEnforce_spec w view f Hv Hf Ht).
  destruct (updateEditButtonsVisibility_active
              (if has (lockedFiles w) (path f)
                  || bool_decide (resolveViewMode (settings w)
                                    (getFileCache w f) (path f) = Some Lock)
               then
                 let w1 := if has (lockedFiles w) (path f) then w
                           else addLocked w (path f) in
                 if notPreview (liveState view)
                 then set_activeView
                        (notify w1 (NoticeLocked (Some (basename f))))
                        (Some (hostApply view
                                 (with_mode (liveState view) Preview)
                                 noHistory))
                 else set_activeView w1 (Some view)
               else set_activeView w (Some view)))
    as (Ha & _ & _ & Hn).
  rewrite locked_updateEditButtonsVisibility, Ha, Hn. clear Ha Hn.
  assert (Hmust : has (lockedFiles w) (path f)
                  || bool_decide (resolveViewMode (settings w)
                                    (getFileCache w f) (path f) = Some Lock)
                  = true).
  { destruct Hcase as [Hl|Hr].
    - apply has_true in Hl. now rewrite Hl.
    - rewrite (bool_decide_eq_true_2 _ Hr). apply orb_true_r. }
  rewrite Hmust. cbv zeta.
  destruct (has (lockedFiles w) (path f)) eqn:Hl.
  - apply has_true in Hl.
    assert (Hsame : {[path f]} ∪ lockedFiles w = lockedFiles w).
    { apply set_eq. intros x. rewrite elem_of_union, elem_of_singleton.
      split; [intros [->|H]; assumption | auto]. }
    rewrite Hsame.
    destruct (notPreview (liveState view)); cbn;
      rewrite ?app_nil_r; auto.
  - destruct (notPreview (liveState view)); cbn;
      rewrite ?app_nil_r; auto.
Qed.

(** What it does to one that need not be. *)
Lemma checkAndEnforce_leaves (w : World) (view : MarkdownView) (f : TFile) :
  activeView w = Some view -> file view = Some f ->
  path f ∉ temporarilyUnlockedFiles w ->
  path f ∉ lockedFiles w ->
  resolveViewMode (settings w) (getFileCache w f) (path f) <> Some Lock ->
  checkAndEnforceLockedFiles w = updateEditButtonsVisibility w.
Proof.
  intros Hv Hf Ht Hl Hr. apply (checkAndEnforce_settled w view f Hv Hf Ht).
  right. split; [now apply has_false | exact Hr].
Qed.

(** X6. After [checkAndEnforceLockedFiles], an active document that is
    not temporarily unlocked and that was in [lockedFiles] or has a lock
    policy is in [lockedFiles] and shown in preview: if it was in preview
    already nothing is written and no notice raised, otherwise the host
    gets one call (preview, no history) and the user one notice.  An
    active document that is neither locked nor of lock policy keeps its
    view, and the registry and the notices stay as they are. *)
Theorem enforcement_postcondition (w : World) (view : MarkdownView)
    (f : TFile) :
  activeView w = Some view -> file view = Some f ->
  path f ∉ temporarilyUnlockedFiles w ->
  (path f ∈ lockedFiles w
   \/ resolveViewMode (settings w) (getFileCache w f) (path f) = Some Lock ->
   path f ∈ lockedFiles (checkAndEnforceLockedFiles w)
   /\ exists view',
        activeView (checkAndEnforceLockedFiles w) = Some view'
        /\ file view' = Some f
        /\ mode (liveState view') = Some Preview
        /\ (mode (liveState view) = Some Preview ->
            view' = view
            /\ notices (checkAndEnforceLockedFiles w) = notices w)
        /\ (mode (liveState view) <> Some Preview ->
            hostCalls view'
            = (hostCalls view
               ++ [(with_mode (liveState view) Preview, noHistory)])%list
            /\ notices (checkAndEnforceLockedFiles w)
               = (notices w ++ [NoticeLocked (Some (basename f))])%list))
  /\ (path f ∉ lockedFiles w ->
      resolveViewMode (settings w) (getFileCache w f) (path f) <> Some Lock ->
      lockedFiles (checkAndEnforceLockedFiles w) = lockedFiles w
      /\ activeView (checkAndEnforceLockedFiles w) = Some view
      /\ notices (checkAndEnforceLockedFiles w) = notices w).
Proof.
  intros Hv Hf Ht. split.
  - intros Hcase.
    destruct (checkAndEnforce_locks w view f Hv Hf Ht Hcase)
      as (Hl & Ha & Hn).
    split; [rewrite Hl; apply elem_of_union_l; now apply elem_of_singleton|].
    eexists. split; [exact Ha|].
    destruct (notPreview (liveState view)) eqn:Hp.
    + split; [exact Hf|]. split; [reflexivity|]. split.
      * intros Hm. apply notPreview_false in Hm. congruence.
      * intros _. split; [reflexivity | exact Hn].
    + split; [exact Hf|]. apply notPreview_false in Hp.
      split; [exact Hp|]. split.
      * intros _. split; [reflexivity|]. now rewrite Hn, app_nil_r.
      * intros Hm. contradiction.
  - intros Hl Hr. rewrite (checkAndEnforce_leaves w view f Hv Hf Ht Hl Hr).
    destruct (updateEditButtonsVisibility_active w) as (Ha & _ & _ & Hn).
    now rewrite locked_updateEditButtonsVisibility, Ha, Hn.
Qed.

(** B's policy is lock; it is active and shown in source mode. *)
Lemma enforcement_postcondition_witness :
  exists view',
    activeView (checkAndEnforceLockedFiles worldAB) = Some view'
    /\ file view' = Some fileB
    /\ mode (liveState view') = Some Preview.
Proof.
  assert (Ht : path fileB ∉ temporarilyUnlockedFiles worldAB)
    by (apply has_false; vm_compute; reflexivity).
  destruct (proj1 (enforcement_postcondition worldAB
                     (freshView fileB sourceState) fileB
                     eq_refl eq_refl Ht))
    as (_ & view' & Ha & Hf & Hm & _).
  - right. vm_compute. reflexivity.
  - exists view'. auto.
Defined.

(** ** What the handlers do to the registry and to the active view *)

Lemma checkAndEnforce_registry (w : World) :
  lockedFiles (checkAndEnforceLockedFiles w) = lockedFiles w
  \/ exists view f,
       activeView w = Some view /\ file view = Some f
       /\ (path f ∉ temporarilyUnlockedFiles w)
       /\ resolveViewMode (settings w) (getFileCache w f) (path f) = Some Lock
       /\ lockedFiles (checkAndEnforceLockedFiles w)
          = {[path f]} ∪ lockedFiles w.
Proof.
  destruct (activeView w) as [view|] eqn:Hv;
    [|left; now rewrite (checkAndEnforce_early w) by auto].
  destruct (file view) as [f|] eqn:Hf;
    [|left; now rewrite (checkAndEnforce_early w) by eauto].
  destruct (decide (path f ∈ temporarilyUnlockedFiles w)) as [Ht|Ht];
    [left; now rewrite (checkAndEnforce_early w) by eauto 8|].
  destruct (decide (path f ∈ lockedFiles w)) as [Hl|Hl].
  - left.
    rewrite (proj1 (checkAndEnforce_locks w view f Hv Hf Ht (or_introl Hl))).
    apply set_eq. intros x. rewrite elem_of_union, elem_of_singleton.
    split; [intros [->|H]; assumption | auto].
  - destruct (decide (resolveViewMode (settings w) (getFileCache w f)
                        (path f) = Some Lock)) as [Hr|Hr].
    + right. exists view, f. repeat split; try assumption.
      apply (checkAndEnforce_locks w view f Hv Hf Ht (or_intror Hr)).
    + left. rewrite (checkAndEnforce_leaves w view f Hv Hf Ht Hl Hr).
      apply locked_updateEditButtonsVisibility.
Qed.

Lemma checkAndEnforce_view (w : World) :
  activeView (checkAndEnforceLockedFiles w) = activeView w
  \/ exists view,
       activeView w = Some view
       /\ activeView (checkAndEnforceLockedFiles w)
          = Some (hostApply view (with_mode (liveState view) Preview)
                    noHistory).
Proof.
  destruct (activeView w) as [view|] eqn:Hv;
    [|left; now rewrite (checkAndEnforce_early w) by auto].
  destruct (file view) as [f|] eqn:Hf;
    [|left; now rewrite (checkAndEnforce_early w) by eauto].
  destruct (decide (path f ∈ temporarilyUnlockedFiles w)) as [Ht|Ht];
    [left; now rewrite (checkAndEnforce_early w) by eauto 8|].
  destruct (decide (path f ∈ lockedFiles w
                    \/ resolveViewMode (settings w) (getFileCache w f)
                         (path f) = Some Lock)) as [Hcase|Hcase].
  - destruct (checkAndEnforce_locks w view f Hv Hf Ht Hcase) as (_ & Ha & _).
    rewrite Ha. destruct (notPreview (liveState view)); [|now left].
    right. now exists view.
  - left. rewrite (checkAndEnforce_leaves w view f Hv Hf Ht) by tauto.
    rewrite (proj1 (updateEditButtonsVisibility_active w)). exact Hv.
Qed.

Lemma setViewMode_view (w : World) (view : MarkdownView) (vm : ViewMode) :
  exists st,
    snd (setViewMode w view vm)
    = hostApply (patchViewStateMethod view) st noHistory.
Proof.
  unfold setViewMode, callSetState.
  destruct vm; cbv zeta; cbn iota;
    match goal with
    | |- context [runSetter ?g ?w0 ?v ?st ?res] =>
        destruct (runSetter_result g w0 v st res) as (st' & Hst & _);
        exists st'; exact Hst
    end.
Qed.

Lemma applyOnOpen_registry (w : World) (f : TFile) :
  lockedFiles (applyOnOpen w f) = lockedFiles w
  \/ exists view,
       activeView w = Some view /\ file view = Some f
       /\ resolveViewMode (settings w) (getFileCache w f) (path f) = Some Lock
       /\ lockedFiles (applyOnOpen w f) = {[path f]} ∪ lockedFiles w.
Proof.
  unfold applyOnOpen.
  destruct (resolveViewMode _ _ _) as [vm|] eqn:Hr; [|now left].
  destruct (activeView w) as [view|] eqn:Hv; [|now left].
  destruct (bool_decide (file view = Some f)) eqn:Hf; [|now left].
  apply bool_decide_eq_true in Hf.
  pose proof (locked_setViewMode w view vm) as Hl.
  destruct (setViewMode w view vm) as [w1 view1]. cbn [fst] in Hl.
  rewrite locked_updateEditButtonsVisibility.
  cbn [lockedFiles set_activeView]. rewrite Hl.
  destruct vm; try (now left).
  right. exists view. rewrite Hf. repeat split; auto.
Qed.

Lemma applyOnOpen_view (w : World) (f : TFile) :
  activeView (applyOnOpen w f) = activeView w
  \/ exists view st,
       activeView w = Some view
       /\ activeView (applyOnOpen w f)
          = Some (hostApply (patchViewStateMethod view) st noHistory).
Proof.
  unfold applyOnOpen.
  destruct (resolveViewMode _ _ _) as [vm|] eqn:Hr; [|now left].
  destruct (activeView w) as [view|] eqn:Hv; [|now left].
  destruct (bool_decide (file view = Some f)) eqn:Hf; [|now left].
  right. destruct (setViewMode_view w view vm) as [st Hst].
  destruct (setViewMode w view vm) as [w1 view1]. cbn [snd] in Hst.
  exists view, st. split; [reflexivity|].
  rewrite (proj1 (updateEditButtonsVisibility_active _)). cbn. now rewrite Hst.
Qed.

Lemma enforceActiveLock_spec (w : World) :
  enforceActiveLock w
  = match activeView w with
    | Some view =>
        match file view with
        | Some f =>
            if has (lockedFiles w) (path f)
               && negb (has (temporarilyUnlockedFiles w) (path f))
               && notPreview (liveState view)
            then set_activeView w
                   (Some (hostApply view (with_mode (liveState view) Preview)
                            noHistory))
            else w
        | None => w
        end
    | None => w
    end.
Proof.
  unfold enforceActiveLock, getState, callSetState.
  destruct (activeView w) as [view|]; [|reflexivity].
  destruct (file view) as [f|]; [|reflexivity]. cbv zeta.
  destruct (has (lockedFiles w) (path f)
            && negb (has (temporarilyUnlockedFiles w) (path f)));
    [|reflexivity].
  cbn [andb].
  destruct (notPreview (liveState view)); [|reflexivity].
  now rewrite runSetter_pass by reflexivity.
Qed.

Lemma dispatch_timer (i : nat) (w : World) :
  dispatch (TimerFires i) w
  = match nth_error (timers w) i with
    | Some (cb, _) => runCallback cb (takeTimer w i)
    | None => w
    end.
Proof.
  unfold dispatch. simpl.
  now destruct (nth_error (timers w) i) as [[cb ms]|].
Qed.

(** The registry after one event: [lockedFiles] is as before, or has
    gained the path of the active document, whose policy is lock -- and
    which is not temporarily unlocked, unless the event is the expiry of a
    file-open timer. *)
Lemma dispatch_registry (e : Event) (w : World) :
  lockedFiles (dispatch e w) = lockedFiles w
  \/ exists view f,
       activeView w = Some view /\ file view = Some f
       /\ resolveViewMode (settings w) (getFileCache w f) (path f) = Some Lock
       /\ (path f ∉ temporarilyUnlockedFiles w \/ ~ notFileOpenTimer e w)
       /\ lockedFiles (dispatch e w) = {[path f]} ∪ lockedFiles w.
Proof.
  assert (Hcheck : forall g : World -> World,
             (forall X, lockedFiles (g X) = lockedFiles X) ->
             lockedFiles (g (checkAndEnforceLockedFiles w)) = lockedFiles w
             \/ exists view f,
                  activeView w = Some view /\ file view = Some f
                  /\ resolveViewMode (settings w) (getFileCache w f)
                       (path f) = Some Lock
                  /\ (path f ∉ temporarilyUnlockedFiles w
                      \/ ~ notFileOpenTimer e w)
                  /\ lockedFiles (g (checkAndEnforceLockedFiles w))
                     = {[path f]} ∪ lockedFiles w).
  { intros g Hg. rewrite Hg.
    destruct (checkAndEnforce_registry w)
      as [H|(view & f & Hv & Hf & Ht & Hr & Hl)]; [now left|].
    right. exists view, f. auto 6. }
  destruct e as [[f|]| | | | |f|i].
  - left. unfold dispatch. simpl.
    now destruct (String.eqb (extension f) "md").
  - now left.
  - apply (Hcheck (fun X => setTimeout X CbEnforceActiveLock 10)).
    reflexivity.
  - apply (Hcheck handleLeafChange). intros X.
    rewrite handleLeafChange_clear.
    now rewrite locked_updateEditButtonsVisibility.
  - apply (Hcheck (fun X => X)). reflexivity.
  - unfold dispatch. simpl.
    destruct (Nat.eqb (size (temporarilyUnlockedFiles w)) 0).
    + apply (Hcheck updateEditButtonsVisibility).
      apply locked_updateEditButtonsVisibility.
    + left. apply locked_updateEditButtonsVisibility.
  - left. unfold dispatch. simpl.
    now destruct (String.eqb (extension f) "md").
  - rewrite dispatch_timer.
    destruct (nth_error (timers w) i) as [[cb ms]|] eqn:Hi; [|now left].
    destruct cb as [f| |]; cbn [runCallback].
    + destruct (applyOnOpen_registry (takeTimer w i) f)
        as [H|(view & Hv & Hf & Hr & Hl)]; [now left|].
      right. exists view, f. repeat split; try assumption.
      right. intros Hnot. now apply (Hnot i f ms).
    + destruct (checkAndEnforce_registry (takeTimer w i))
        as [H|(view & f & Hv & Hf & Ht & Hr & Hl)]; [now left|].
      right. exists view, f. auto 6.
    + left. rewrite enforceActiveLock_spec. cbn [activeView takeTimer].
      now split_cases.
Qed.

(** X7. No handler ever takes a document out of [lockedFiles], and the
    only document an event can add is the active one, and only when its
    policy resolves to lock: after any event the set is as before, or as
    before plus the path of the active document, whose policy is lock.
    So over any run of events the set only grows. *)
Theorem only_lock_policy_locks (w : World) :
  (forall e,
      lockedFiles (dispatch e w) = lockedFiles w
      \/ exists view f,
           activeView w = Some view /\ file view = Some f
           /\ resolveViewMode (settings w) (getFileCache w f) (path f)
              = Some Lock
           /\ lockedFiles (dispatch e w) = {[path f]} ∪ lockedFiles w)
  /\ (forall es, lockedFiles w ⊆ lockedFiles (run es w)).
Proof.
  assert (Hstep : forall w0 e,
            lockedFiles (dispatch e w0) = lockedFiles w0
            \/ exists view f,
                 activeView w0 = Some view /\ file view = Some f
                 /\ resolveViewMode (settings w0) (getFileCache w0 f) (path f)
                    = Some Lock
                 /\ lockedFiles (dispatch e w0) = {[path f]} ∪ lockedFiles w0).
  { intros w0 e.
    destruct (dispatch_registry e w0)
      as [H|(view & f & Hv & Hf & Hr & _ & Hl)]; [now left|].
    right. now exists view, f. }
  split; [apply Hstep|].
  intros es. revert w. induction es as [|e es IH]; intros w; [reflexivity|].
  simpl. etransitivity; [|apply IH].
  destruct (Hstep w e) as [->|(view & f & _ & _ & _ & ->)];
    [reflexivity | apply union_subseteq_r].
Qed.

(** X8. The enforcement keeps the two sets of the registry apart: if no
    document is in both, then none is after any event other than the
    expiry of a file-open timer, and none is after [unlockFile].  In such
    a state [isFileLocked] and the test "locked and not temporarily
    unlocked" of the wrapper and of the button code give the same
    answer. *)
Theorem enforcement_keeps_registry_disjoint (w : World) :
  disjointRegistry w ->
  (forall e, notFileOpenTimer e w -> disjointRegistry (dispatch e w))
  /\ (forall id, disjointRegistry (unlockFile w id))
  /\ (forall id,
        isFileLocked w id
        = has (lockedFiles w) id
          && negb (has (temporarilyUnlockedFiles w) id)).
Proof.
  intros Hd. split; [|split].
  - intros e He x Hx.
    destruct (decide (e = ActiveLeafChange)) as [->|Hne];
      [rewrite temp_after_leaf_change; apply not_elem_of_empty|].
    rewrite (temp_dispatch e w Hne).
    destruct (dispatch_registry e w)
      as [Hl|(view & f & _ & _ & _ & Ht & Hl)]; rewrite Hl in Hx.
    + now apply Hd.
    + apply elem_of_union in Hx as [Hx|Hx]; [|now apply Hd].
      apply elem_of_singleton in Hx as ->. tauto.
  - intros id x. destruct (registry_unlockFile w id) as [-> ->].
    rewrite elem_of_difference, elem_of_union, !elem_of_singleton.
    intros [Hx Hne] [Heq|Ht]; [contradiction | now apply (Hd x)].
  - intros id. unfold isFileLocked.
    destruct (has (lockedFiles w) id) eqn:Hl; [|reflexivity].
    apply has_true, Hd, has_false in Hl. now rewrite Hl.
Qed.

Lemma enforcement_keeps_registry_disjoint_witness :
  disjointRegistry worldAB /\ disjointRegistry (dispatch Resize worldAB).
Proof.
  assert (Hd : disjointRegistry worldAB).
  { intros x Hx. vm_compute in Hx. discriminate. }
  split; [exact Hd|].
  apply (proj1 (enforcement_keeps_registry_disjoint worldAB Hd) Resize).
  intros i f ms H. discriminate.
Defined.

(** X9. No event adds a temporary unlock: after any run of events the set
    of temporarily unlocked documents is what it was, or empty. *)
Theorem events_never_unlock (es : list Event) (w : World) :
  temporarilyUnlockedFiles (run es w) = temporarilyUnlockedFiles w
  \/ temporarilyUnlockedFiles (run es w) = ∅.
Proof.
  revert w. induction es as [|e es IH]; intros w; [now left|].
  simpl. destruct (IH (dispatch e w)) as [H|H]; [|now right].
  rewrite H. destruct (decide (e = ActiveLeafChange)) as [->|Hne].
  - right. apply temp_after_leaf_change.
  - left. now apply temp_dispatch.
Qed.

(** The active view after one event: the same view, or the view after one
    call of the host's setter without history -- a call for preview, or,
    at the expiry of a file-open timer, a call made through the wrapper
    that the callback installs. *)
Lemma dispatch_view (e : Event) (w : World) :
  activeView (dispatch e w) = activeView w
  \/ (exists view,
        activeView w = Some view
        /\ activeView (dispatch e w)
           = Some (hostApply view (with_mode (liveState view) Preview)
                     noHistory))
  \/ (~ notFileOpenTimer e w
      /\ exists view st,
           activeView w = Some view
           /\ activeView (dispatch e w)
              = Some (hostApply (patchViewStateMethod view) st noHistory)).
Proof.
  assert (Hcheck : forall g : World -> World,
             (forall X, activeView (g X) = activeView X) ->
             activeView (g (checkAndEnforceLockedFiles w)) = activeView w
             \/ (exists view,
                   activeView w = Some view
                   /\ activeView (g (checkAndEnforceLockedFiles w))
                      = Some (hostApply view
                                (with_mode (liveState view) Preview)
                                noHistory))
             \/ (~ notFileOpenTimer e w
                 /\ exists view st,
                      activeView w = Some view
                      /\ activeView (g (checkAndEnforceLockedFiles w))
                         = Some (hostApply (patchViewStateMethod view) st
                                   noHistory))).
  { intros g Hg. rewrite Hg.
    destruct (checkAndEnforce_view w) as [H|H]; auto. }
  assert (Hupd : forall X,
             activeView (updateEditButtonsVisibility X) = activeView X)
    by (intros X; apply updateEditButtonsVisibility_active).
  destruct e as [[f|]| | | | |f|i].
  - left. unfold dispatch. simpl.
    now destruct (String.eqb (extension f) "md").
  - now left.
  - apply (Hcheck (fun X => setTimeout X CbEnforceActiveLock 10)).
    reflexivity.
  - apply (Hcheck handleLeafChange). intros X.
    rewrite handleLeafChange_clear. now rewrite Hupd.
  - apply (Hcheck (fun X => X)). reflexivity.
  - unfold dispatch. simpl.
    destruct (Nat.eqb (size (temporarilyUnlockedFiles w)) 0).
    + apply (Hcheck updateEditButtonsVisibility Hupd).
    + left. apply Hupd.
  - left. unfold dispatch. simpl.
    now destruct (String.eqb (extension f) "md").
  - rewrite dispatch_timer.
    destruct (nth_error (timers w) i) as [[cb ms]|] eqn:Hi; [|now left].
    destruct cb as [f| |]; cbn [runCallback].
    + destruct (applyOnOpen_view (takeTimer w i) f)
        as [H|(view & st & Hv & Ha)]; [now left|].
      right. right. split; [|now exists view, st].
      intros Hnot. now apply (Hnot i f ms).
    + destruct (checkAndEnforce_view (takeTimer w i)) as [H|H]; auto.
    + rewrite enforceActiveLock_spec.
      change (activeView (takeTimer w i)) with (activeView w).
      destruct (activeView w) as [view|] eqn:Hv; [|left; exact Hv].
      destruct (file view) as [f|]; [|left; exact Hv].
      match goal with
      | |- context [if ?c then _ else _] => destruct c
      end; [|left; exact Hv].
      right. left. now exists view.
Qed.

(** X10. Whatever the event, the plugin calls the host's setter at most
    once on the active view, always without history, and the view stays
    the active view of the same file.  Unless the event is the expiry of a
    file-open timer, the state it passes has display mode preview and the
    view keeps the setter it had: enforcement never writes anything but
    preview. *)
Theorem events_write_preview_without_history (e : Event) (w : World) :
  (activeView w = None -> activeView (dispatch e w) = None)
  /\ (forall view,
        activeView w = Some view ->
        exists view' new,
          activeView (dispatch e w) = Some view'
          /\ file view' = file view
          /\ hostCalls view' = (hostCalls view ++ new)%list
          /\ (length new <= 1)%nat
          /\ Forall (fun c => history (snd c) = false) new
          /\ (notFileOpenTimer e w ->
              Forall (fun c => mode (fst c) = Some Preview) new
              /\ setState view' = setState view)).
Proof.
  split.
  - intros Hnone.
    destruct (dispatch_view e w)
      as [H|[(view & Hv & _)|(_ & view & st & Hv & _)]]; congruence.
  - intros view Hv.
    destruct (dispatch_view e w)
      as [H|[(view0 & Hv0 & Ha)|(Hopen & view0 & st & Hv0 & Ha)]].
    + exists view, []. rewrite H, app_nil_r. repeat split; auto.
    + assert (view0 = view) as -> by congruence.
      eexists _, [(_, noHistory)]. split; [exact Ha|].
      repeat split; auto.
    + assert (view0 = view) as -> by congruence.
      destruct (patch_fields view) as (Hfile & _ & Hcalls).
      eexists _, [(st, noHistory)]. split; [exact Ha|].
      cbn [file hostCalls hostApply]. rewrite Hfile, Hcalls.
      repeat split; auto. all: contradiction.
Qed.

Lemma events_write_preview_without_history_witness :
  exists view' new,
    activeView (dispatch Resize worldAB) = Some view'
    /\ hostCalls view' = new
    /\ Forall (fun c => mode (fst c) = Some Preview) new.
Proof.
  destruct (proj2 (events_write_preview_without_history Resize worldAB)
              (freshView fileB sourceState) eq_refl)
    as (view' & new & Ha & _ & Hcalls & _ & _ & Hpreview).
  exists view', new. repeat split; try assumption.
  apply Hpreview. intros i f ms H. discriminate.
Defined.

(** X11. The delayed callback of the second layout-change handler is a
    silent enforcement: it changes nothing but the active view (no notice,
    no change of the registry), writes only when the active document is in
    [lockedFiles], not temporarily unlocked and not in preview, and then
    leaves it in preview. *)
Theorem delayed_layout_enforcement_is_silent (w : World) :
  set_activeView (enforceActiveLock w) (activeView w) = w
  /\ (forall view f,
        activeView w = Some view -> file view = Some f ->
        (path f ∈ lockedFiles w ->
         path f ∉ temporarilyUnlockedFiles w ->
         exists view',
           activeView (enforceActiveLock w) = Some view'
           /\ file view' = Some f
           /\ mode (liveState view') = Some Preview)
        /\ (path f ∉ lockedFiles w
            \/ path f ∈ temporarilyUnlockedFiles w
            \/ mode (liveState view) = Some Preview ->
            enforceActiveLock w = w)).
Proof.
  rewrite enforceActiveLock_spec. split.
  - destruct w as [s lp lf tf [view|] fc ns eb ts]; cbn; [|reflexivity].
    destruct (file view) as [f|]; [|reflexivity].
    now match goal with
        | |- context [if ?c then _ else _] => destruct c
        end.
  - intros view f Hv Hf. rewrite Hv, Hf. split.
    + intros Hl Ht. apply has_true in Hl. apply has_false in Ht.
      rewrite Hl, Ht. cbn [andb negb].
      destruct (notPreview (liveState view)) eqn:Hp.
      * eexists. split; [reflexivity|]. now split.
      * exists view. apply notPreview_false in Hp. now repeat split.
    + intros [Hl|[Ht|Hm]].
      * apply has_false in Hl. now rewrite Hl.
      * apply has_true in Ht. now rewrite Ht, andb_false_r.
      * apply notPreview_false in Hm. now rewrite Hm, andb_false_r.
Qed.

Lemma delayed_layout_enforcement_is_silent_witness :
  exists view',
    activeView (enforceActiveLock
                  (set_activeView worldLockedD
                     (Some (freshView fileD sourceState))))
    = Some view'
    /\ file view' = Some fileD
    /\ mode (liveState view') = Some Preview.
Proof.
  apply (proj1 (proj2 (delayed_layout_enforcement_is_silent
                         (set_activeView worldLockedD
                            (Some (freshView fileD sourceState))))
                 (freshView fileD sourceState) fileD eq_refl eq_refl)).
  - apply has_true. vm_compute. reflexivity.
  - apply has_false. vm_compute. reflexivity.
Defined.

(** ** Unlocking for the session *)

Lemma unlockFile_spec (w : World) (id : string) :
  unlockFile w id
  = updateEditButtonsVisibility
      (let w1 :=
         set_temporarilyUnlockedFiles
           (set_lockedFiles w (lockedFiles w ∖ {[id]}))
           ({[id]} ∪ temporarilyUnlockedFiles w) in
       match activeView w with
       | Some view =>
           match file view with
           | Some f =>
               if String.eqb (path f) id
               then set_activeView w1
                      (Some (hostApply view
                               (with_source (with_mode (liveState view) Source)
                                  (negb (livePreviewConfig w)))
                               noHistory))
               else w1
           | None => w1
           end
       | None => w1
       end).
Proof.
  unfold unlockFile. cbv zeta. f_equal.
  cbn [activeView set_temporarilyUnlockedFiles set_lockedFiles
       livePreviewConfig].
  destruct (activeView w) as [view|]; [|reflexivity].
  destruct (file view) as [f|] eqn:Hf; [|reflexivity].
  destruct (String.eqb_spec (path f) id) as [<-|Hne]; [|reflexivity].
  unfold callSetState, getState. rewrite runSetter_unguarded; [reflexivity|].
  unfold guardApplies. rewrite Hf. cbn [lockedFiles
    set_temporarilyUnlockedFiles set_lockedFiles].
  assert (Hgone : has (lockedFiles w ∖ {[path f]}) (path f) = false).
  { apply has_false. rewrite elem_of_difference, elem_of_singleton. tauto. }
  now rewrite Hgone, andb_false_r.
Qed.

(** X12. The write of [unlockFile] is never intercepted: because the
    document leaves [lockedFiles] first, the wrapper lets the request
    through, so the active document, when it is the one unlocked, goes to
    source mode with source style [!livePreviewConfig] by one call without
    history and without a notice.  Unlocking another document leaves the
    active view as it is. *)
Theorem unlock_write_is_not_intercepted (w : World) (view : MarkdownView)
    (f : TFile) :
  activeView w = Some view -> file view = Some f ->
  activeView (unlockFile w (path f))
  = Some (hostApply view
            {| mode := Some Source;
               source := Some (negb (livePreviewConfig w));
               otherKeys := otherKeys (liveState view) |} noHistory)
  /\ notices (unlockFile w (path f)) = notices w
  /\ (forall id,
        id <> path f ->
        activeView (unlockFile w id) = Some view
        /\ notices (unlockFile w id) = notices w).
Proof.
  intros Hv Hf.
  assert (Hid : forall id,
            activeView (unlockFile w id)
            = (if String.eqb (path f) id
               then Some (hostApply view
                            (with_source (with_mode (liveState view) Source)
                               (negb (livePreviewConfig w))) noHistory)
               else Some view)
            /\ notices (unlockFile w id) = notices w).
  { intros id. rewrite unlockFile_spec. cbv zeta. rewrite Hv, Hf.
    match goal with
    | |- context [updateEditButtonsVisibility ?X] =>
        destruct (updateEditButtonsVisibility_active X) as (-> & _ & _ & ->)
    end.
    now destruct (String.eqb (path f) id). }
  split; [|split].
  - rewrite (proj1 (Hid (path f))). now rewrite String.eqb_refl.
  - apply Hid.
  - intros id Hne. destruct (Hid id) as [Ha Hn]. split; [|exact Hn].
    rewrite Ha. apply not_eq_sym, String.eqb_neq in Hne. now rewrite Hne.
Qed.

Lemma unlock_write_is_not_intercepted_witness :
  activeView (unlockFile worldLockedD "D.md")
  = Some (hostApply (freshView fileD previewState) sourceState noHistory).
Proof.
  exact (proj1 (unlock_write_is_not_intercepted worldLockedD
                  (freshView fileD previewState) fileD eq_refl eq_refl)).
Defined.

(** The active view and what resolution reads, after [unlockFile] of the
    active document. *)
Lemma unlock_active_view (w : World) (view : MarkdownView) (f : TFile) :
  activeView w = Some view -> file view = Some f ->
  exists v1,
    activeView (unlockFile w (path f)) = Some v1
    /\ file v1 = Some f
    /\ settings (unlockFile w (path f)) = settings w
    /\ fileCaches (unlockFile w (path f)) = fileCaches w.
Proof.
  intros Hv Hf. rewrite unlockFile_spec. cbv zeta. rewrite Hv, Hf.
  rewrite String.eqb_refl.
  match goal with
  | |- context [updateEditButtonsVisibility ?X] =>
      destruct (updateEditButtonsVisibility_active X) as (-> & -> & -> & _)
  end.
  eexists. split; [reflexivity|]. now repeat split.
Qed.

(** X13. Unlocking and re-locking, step by step, for an active document
    whose policy is lock.  After [unlockFile] it is not reported locked.
    The active-leaf-change event empties the set of temporary unlocks but
    does not lock the document yet (its enforcement runs before the set is
    emptied).  The next tick of the interval then puts the document back
    in [lockedFiles] and in preview. *)
Theorem unlock_then_relock (w : World) (view : MarkdownView) (f : TFile) :
  activeView w = Some view -> file view = Some f ->
  resolveViewMode (settings w) (getFileCache w f) (path f) = Some Lock ->
  isFileLocked (unlockFile w (path f)) (path f) = false
  /\ (path f ∉ lockedFiles (run [ActiveLeafChange] (unlockFile w (path f))))
  /\ temporarilyUnlockedFiles
       (run [ActiveLeafChange] (unlockFile w (path f))) = ∅
  /\ activeView (run [ActiveLeafChange] (unlockFile w (path f)))
     = activeView (unlockFile w (path f))
  /\ path f ∈ lockedFiles
                (run [ActiveLeafChange; IntervalTick] (unlockFile w (path f)))
  /\ exists view',
       activeView
         (run [ActiveLeafChange; IntervalTick] (unlockFile w (path f)))
       = Some view'
       /\ file view' = Some f
       /\ mode (liveState view') = Some Preview.
Proof.
  intros Hv Hf Hr.
  destruct (registry_unlockFile w (path f)) as [Hl1 Ht1].
  destruct (unlock_active_view w view f Hv Hf) as (v1 & Hv1 & Hf1 & Hs1 & Hc1).
  set (w1 := unlockFile w (path f)) in *.
  assert (Hin1 : path f ∈ temporarilyUnlockedFiles w1)
    by (rewrite Ht1; apply elem_of_union_l; now apply elem_of_singleton).
  assert (Hout1 : path f ∉ lockedFiles w1)
    by (rewrite Hl1, elem_of_difference, elem_of_singleton; tauto).
  assert (Hw2 : dispatch ActiveLeafChange w1
                = updateEditButtonsVisibility
                    (set_temporarilyUnlockedFiles w1 ∅)).
  { unfold dispatch. simpl.
    rewrite (checkAndEnforce_early w1) by eauto 8.
    apply handleLeafChange_clear. }
  destruct (updateEditButtonsVisibility_active
              (set_temporarilyUnlockedFiles w1 ∅)) as (Ha2 & Hs2 & Hc2 & _).
  pose proof (locked_updateEditButtonsVisibility
                (set_temporarilyUnlockedFiles w1 ∅)) as Hl2.
  pose proof (temp_updateEditButtonsVisibility
                (set_temporarilyUnlockedFiles w1 ∅)) as Ht2.
  rewrite <- Hw2 in Ha2, Hs2, Hc2, Hl2, Ht2.
  cbn [activeView settings fileCaches lockedFiles temporarilyUnlockedFiles
       set_temporarilyUnlockedFiles] in Ha2, Hs2, Hc2, Hl2, Ht2.
  clear Hw2. remember (dispatch ActiveLeafChange w1) as w2 eqn:Ew2.
  assert (Hr2 : resolveViewMode (settings w2) (getFileCache w2 f) (path f)
                = Some Lock).
  { unfold getFileCache. rewrite Hs2, Hc2, Hs1, Hc1. exact Hr. }
  assert (Hnt2 : path f ∉ temporarilyUnlockedFiles w2)
    by (rewrite Ht2; apply not_elem_of_empty).
  assert (Hv2 : activeView w2 = Some v1) by (now rewrite Ha2).
  destruct (checkAndEnforce_locks w2 v1 f Hv2 Hf1 Hnt2 (or_intror Hr2))
    as (Hl3 & Ha3 & _).
  assert (Hw3 : run [ActiveLeafChange; IntervalTick] w1
                = updateEditButtonsVisibility
                    (checkAndEnforceLockedFiles w2)).
  { unfold run. cbn [fold_left]. rewrite <- Ew2. unfold dispatch.
    cbn [handlerCalls]. rewrite Ht2, size_empty. reflexivity. }
  split; [|split; [|split; [|split; [|split]]]].
  - unfold isFileLocked. now apply has_false.
  - unfold run. cbn [fold_left]. now rewrite <- Ew2, Hl2.
  - unfold run. cbn [fold_left]. now rewrite <- Ew2.
  - unfold run. cbn [fold_left]. now rewrite <- Ew2.
  - rewrite Hw3, locked_updateEditButtonsVisibility, Hl3.
    apply elem_of_union_l. now apply elem_of_singleton.
  - rewrite Hw3, (proj1 (updateEditButtonsVisibility_active _)), Ha3.
    eexists. split; [reflexivity|].
    destruct (notPreview (liveState v1)) eqn:Hp.
    + now split.
    + apply notPreview_false in Hp. now split.
Qed.

Lemma unlock_then_relock_witness :
  path fileD
    ∈ lockedFiles (run [ActiveLeafChange; IntervalTick]
                     (unlockFile worldD "D.md")).
Proof.
  apply (unlock_then_relock worldD (freshView fileD previewState) fileD
           eq_refl eq_refl).
  vm_compute. reflexivity.
Defined.

(** ** Start-up and shutdown *)

Lemma initializeLeaf_spec (w : World) (view : MarkdownView) :
  initializeLeaf w view
  = match file view with
    | Some f =>
        if bool_decide (resolveViewMode (settings w) (getFileCache w f)
                          (path f) = Some Lock)
        then
          if notPreview (liveState view)
          then (notifyIf (showModeChangeNotification (settings w))
                  (addLocked w (path f)) (NoticeLocked (Some (basename f))),
                hostApply view (with_mode (liveState view) Preview) noHistory)
          else (addLocked w (path f), view)
        else (w, view)
    | None => (w, view)
    end.
Proof.
  unfold initializeLeaf, getState, callSetState.
  destruct (file view) as [f|]; [|reflexivity]. cbv zeta.
  destruct (bool_decide _); [|reflexivity].
  destruct (notPreview (liveState view)); [|reflexivity].
  now rewrite runSetter_pass by reflexivity.
Qed.

(** What one step of the scan keeps and what it adds. *)
Lemma initializeLeaf_effect (w : World) (view : MarkdownView) :
  settings (fst (initializeLeaf w view)) = settings w
  /\ fileCaches (fst (initializeLeaf w view)) = fileCaches w
  /\ temporarilyUnlockedFiles (fst (initializeLeaf w view))
     = temporarilyUnlockedFiles w
  /\ (showModeChangeNotification (settings w) = false ->
      notices (fst (initializeLeaf w view)) = notices w)
  /\ file (snd (initializeLeaf w view)) = file view
  /\ setState (snd (initializeLeaf w view)) = setState view
  /\ ((policyIsLock w view
       /\ mode (liveState (snd (initializeLeaf w view))) = Some Preview
       /\ exists f,
            file view = Some f
            /\ lockedFiles (fst (initializeLeaf w view))
               = {[path f]} ∪ lockedFiles w)
      \/ (~ policyIsLock w view
          /\ snd (initializeLeaf w view) = view
          /\ lockedFiles (fst (initializeLeaf w view)) = lockedFiles w)).
Proof.
  rewrite initializeLeaf_spec. unfold policyIsLock.
  destruct (file view) as [f|] eqn:Hf.
  - destruct (bool_decide _) eqn:Hr.
    + apply bool_decide_eq_true in Hr.
      destruct (notPreview (liveState view)) eqn:Hp.
      * split; [|split; [|split; [|split; [|split; [|split]]]]];
          try (now destruct (showModeChangeNotification (settings w)));
          try (cbn; assumption).
        left. split; [now exists f|]. split; [reflexivity|].
        exists f. split; [reflexivity|].
        now destruct (showModeChangeNotification (settings w)).
      * apply notPreview_false in Hp.
        split; [|split; [|split; [|split; [|split; [|split]]]]];
          try (intros; cbn; first [reflexivity | assumption]).
        left. split; [now exists f|]. split; [exact Hp|]. now exists f.
    + apply bool_decide_eq_false in Hr.
      split; [|split; [|split; [|split; [|split; [|split]]]]];
        try (intros; cbn; first [reflexivity | assumption]).
      right. split; [|now split]. intros (f' & [= <-] & Hr'). contradiction.
  - split; [|split; [|split; [|split; [|split; [|split]]]]];
      try (intros; cbn; first [reflexivity | assumption]).
    right. split; [|now split]. intros (f' & Hf' & _). discriminate.
Qed.

Lemma policyIsLock_same (w w' : World) (view : MarkdownView) :
  settings w' = settings w -> fileCaches w' = fileCaches w ->
  policyIsLock w' view <-> policyIsLock w view.
Proof.
  intros Hs Hc. unfold policyIsLock, getFileCache. now rewrite Hs, Hc.
Qed.

(** X14. The scan of the open views at start-up registers exactly the
    documents whose policy is lock: afterwards a path is in [lockedFiles]
    when it was before or when it is the path of a scanned view with lock
    policy.  Those views end in preview, the others are returned as they
    were; no view changes file or setter; the set of temporary unlocks is
    not read and not changed; and with notifications off no notice is
    raised. *)
Theorem startup_scan_locks_lock_policy (w : World)
    (leaves : list MarkdownView) :
  (forall x,
      x ∈ lockedFiles (fst (initializeLockedFiles w leaves)) <->
      x ∈ lockedFiles w
      \/ exists view f,
           In view leaves /\ file view = Some f /\ path f = x
           /\ policyIsLock w view)
  /\ temporarilyUnlockedFiles (fst (initializeLockedFiles w leaves))
     = temporarilyUnlockedFiles w
  /\ Forall2
       (fun view view' =>
          file view' = file view
          /\ setState view' = setState view
          /\ (policyIsLock w view -> mode (liveState view') = Some Preview)
          /\ (~ policyIsLock w view -> view' = view))
       leaves (snd (initializeLockedFiles w leaves))
  /\ (showModeChangeNotification (settings w) = false ->
      notices (fst (initializeLockedFiles w leaves)) = notices w).
Proof.
  assert (Hgen : forall w0,
            settings w0 = settings w -> fileCaches w0 = fileCaches w ->
            (forall x,
                x ∈ lockedFiles (fst (initializeLockedFiles w0 leaves)) <->
                x ∈ lockedFiles w0
                \/ exists view f,
                     In view leaves /\ file view = Some f /\ path f = x
                     /\ policyIsLock w view)
            /\ temporarilyUnlockedFiles (fst (initializeLockedFiles w0 leaves))
               = temporarilyUnlockedFiles w0
            /\ Forall2
                 (fun view view' =>
                    file view' = file view
                    /\ setState view' = setState view
                    /\ (policyIsLock w view ->
                        mode (liveState view') = Some Preview)
                    /\ (~ policyIsLock w view -> view' = view))
                 leaves (snd (initializeLockedFiles w0 leaves))
            /\ (showModeChangeNotification (settings w) = false ->
                notices (fst (initializeLockedFiles w0 leaves))
                = notices w0)).
  { induction leaves as [|view rest IH]; intros w0 Hs Hc.
    - cbn. split; [|split; [|split]].
      + intros x. split; [now left|].
        intros [H|(view & f & [] & _)]. exact H.
      + reflexivity.
      + constructor.
      + reflexivity.
    - cbn [initializeLockedFiles].
      destruct (initializeLeaf_effect w0 view)
        as (Hs1 & Hc1 & Ht1 & Hn1 & Hf1 & Hset1 & Hcase).
      destruct (initializeLeaf w0 view) as [w1 view1]. cbn [fst snd] in *.
      destruct (IH w1) as (Hl2 & Ht2 & Hv2 & Hn2); [congruence..|].
      destruct (initializeLockedFiles w1 rest) as [w2 rest2].
      cbn [fst snd] in *.
      pose proof (policyIsLock_same w w0 view Hs Hc) as Hpol.
      split; [|split; [|split]].
      + intros x. rewrite Hl2. split.
        * intros [Hx|(v & f & Hin & Hf & Hp & Hlock)].
          -- destruct Hcase as [(Hlock & _ & f & Hf & Hl1)|(_ & _ & Hl1)];
               rewrite Hl1 in Hx; [|now left].
             apply elem_of_union in Hx as [Hx|Hx]; [|now left].
             apply elem_of_singleton in Hx as ->.
             right. exists view, f. repeat split; auto.
             now left. now apply Hpol.
          -- right. exists v, f. repeat split; auto. now right.
        * intros [Hx|(v & f & [<-|Hin] & Hf & Hp & Hlock)].
          -- left.
             destruct Hcase as [(_ & _ & f & _ & ->)|(_ & _ & ->)];
               [now apply elem_of_union_r | exact Hx].
          -- left. apply Hpol in Hlock.
             destruct Hcase as [(_ & _ & f' & Hf' & ->)|(Hnot & _)];
               [|contradiction].
             assert (f' = f) as -> by congruence. rewrite <- Hp.
             apply elem_of_union_l. now apply elem_of_singleton.
          -- right. now exists v, f.
      + now rewrite Ht2.
      + constructor; [|exact Hv2].
        split; [exact Hf1|]. split; [exact Hset1|]. split.
        * intros Hlock. apply Hpol in Hlock.
          destruct Hcase as [(_ & Hm & _)|(Hnot & _)];
            [exact Hm | contradiction].
        * intros Hnot.
          destruct Hcase as [(Hlock & _)|(_ & Heq & _)];
            [apply Hpol in Hlock; contradiction | exact Heq].
      + intros Hshow. rewrite Hn2 by exact Hshow. apply Hn1.
        now rewrite Hs. }
  now apply Hgen.
Qed.


Lemma startup_scan_locks_lock_policy_witness :
  showModeChangeNotification (settings worldD) = false
  /\ notices (fst (initializeLockedFiles worldD
                     [freshView fileD sourceState; freshView fileA sourceState]))
     = notices worldD.
Proof.
  split; [reflexivity|].
  apply (proj2 (proj2 (proj2
           (startup_scan_locks_lock_policy worldD
              [freshView fileD sourceState; freshView fileA sourceState])))).
  reflexivity.
Defined.

(** ** The command and the keyboard filter *)



(** ** Opening a document *)

Lemma patch_installed (view : MarkdownView) :
  is_Some (_originalSetState (patchViewStateMethod view)).
Proof.
  unfold patchViewStateMethod.
  destruct (_originalSetState view) eqn:E; cbn; [rewrite E|]; eauto.
Qed.

Lemma take_last_timer (w : World) (cb : Callback) (ms : Z) :
  nth_error (timers (setTimeout w cb ms)) (length (timers w)) = Some (cb, ms)
  /\ takeTimer (setTimeout w cb ms) (length (timers w)) = w.
Proof.
  destruct w as [s lp lf tf av fc ns eb ts]. cbn. split.
  - rewrite nth_error_app2 by lia. now rewrite Nat.sub_diag.
  - unfold takeTimer, setTimeout. cbn. f_equal. rewrite take_app_length.
    rewrite drop_ge; [apply app_nil_r|].
    rewrite length_app. cbn. lia.
Qed.

(** The file-open event for a markdown file, followed by the expiry of
    the timer it set, is the callback on the state as it was. *)
Lemma open_then_timer (w : World) (f : TFile) :
  extension f = "md" ->
  run [FileOpen (Some f); TimerFires (length (timers w))] w = applyOnOpen w f.
Proof.
  intros Hext. unfold run. cbn [fold_left].
  assert (Hopen : dispatch (FileOpen (Some f)) w
                  = setTimeout w (CbApplyOnOpen f) 100).
  { unfold dispatch. cbn [handlerCalls]. now rewrite Hext. }
  rewrite Hopen, dispatch_timer.
  destruct (take_last_timer w (CbApplyOnOpen f) 100) as [Hnth Htake].
  change (timers (setTimeout w (CbApplyOnOpen f) 100))
    with (timers w ++ [(CbApplyOnOpen f, 100)])%list in Hnth |- *.
  now rewrite Hnth, Htake.
Qed.

(** X17. Opening a document.  The file-open handler ignores a missing
    file and a file that is not markdown.  For a markdown file, once its
    timer has expired: nothing at all has changed if no policy applies to
    the file or if the active view shows another file; if the policy is
    read or lock, the view is wrapped and shown in preview by one call
    without history; and the document is in [lockedFiles] afterwards if
    the policy is lock, while a read policy leaves the set alone. *)
Theorem opening_applies_policy (w : World) (f : TFile) :
  dispatch (FileOpen None) w = w
  /\ (extension f <> "md" -> dispatch (FileOpen (Some f)) w = w)
  /\ (extension f = "md" ->
      (resolveViewMode (settings w) (getFileCache w f) (path f) = None
       \/ activeView w = None
       \/ (exists view, activeView w = Some view /\ file view <> Some f) ->
       run [FileOpen (Some f); TimerFires (length (timers w))] w = w)
      /\ (forall view vm,
            activeView w = Some view -> file view = Some f ->
            resolveViewMode (settings w) (getFileCache w f) (path f)
            = Some vm ->
            vm = Read \/ vm = Lock ->
            activeView
              (run [FileOpen (Some f); TimerFires (length (timers w))] w)
            = Some (hostApply (patchViewStateMethod view)
                      (with_mode (liveState view) Preview) noHistory)
            /\ is_Some (_originalSetState (patchViewStateMethod view))
            /\ lockedFiles
                 (run [FileOpen (Some f); TimerFires (length (timers w))] w)
               = match vm with
                 | Lock => {[path f]} ∪ lockedFiles w
                 | _ => lockedFiles w
                 end)).
Proof.
  split; [reflexivity|]. split.
  - intros Hext. unfold dispatch. cbn [handlerCalls].
    apply String.eqb_neq in Hext. now rewrite Hext.
  - intros Hext. rewrite (open_then_timer w f Hext). split.
    + unfold applyOnOpen. intros [Hr|[Hv|(view & Hv & Hf)]].
      * now rewrite Hr.
      * rewrite Hv. now destruct (resolveViewMode _ _ _).
      * rewrite Hv. rewrite bool_decide_eq_false_2 by exact Hf.
        now destruct (resolveViewMode _ _ _).
    + intros view vm Hv Hf Hr Hvm. unfold applyOnOpen.
      rewrite Hr, Hv. rewrite bool_decide_eq_true_2 by exact Hf.
      pose proof (locked_setViewMode w view vm) as Hl.
      assert (Hview : snd (setViewMode w view vm)
                      = hostApply (patchViewStateMethod view)
                          (with_mode (liveState view) Preview) noHistory).
      { unfold setViewMode, callSetState, getState.
        destruct Hvm as [->| ->]; cbv zeta; cbn iota;
          now rewrite runSetter_pass by reflexivity. }
      destruct (setViewMode w view vm) as [w1 view1]. cbn [fst snd] in *.
      rewrite (proj1 (updateEditButtonsVisibility_active _)),
        locked_updateEditButtonsVisibility.
      cbn [activeView lockedFiles set_activeView]. rewrite Hview, Hl, Hf.
      split; [reflexivity|]. split; [apply patch_installed|].
      now destruct Hvm as [->| ->].
Qed.

Lemma opening_applies_policy_witness :
  extension fileD = "md"
  /\ lockedFiles (run [FileOpen (Some fileD); TimerFires 0] worldD)
     = {[path fileD]} ∪ lockedFiles worldD.
Proof.
  split; [reflexivity|].
  exact (proj2 (proj2 (proj2 (proj2 (proj2
           (opening_applies_policy worldD fileD)) eq_refl)
           (freshView fileD previewState) Lock eq_refl eq_refl eq_refl
           (or_intror eq_refl)))).
Defined.
